(** * sqlquerybob: a shallow embedding of the query builder

    The Go package [sqlquerybob] accumulates the description of one SQL
    statement in a [Builder] and renders it with [GenerateQuery].  This file
    embeds the builder, its configuration methods and every clause generator
    of [sqlquerybob.go], together with the error values of the package, and
    proves properties of the generated text, of the placeholder counter and
    of the errors.

    Conventions of the embedding:
    - Go strings are byte strings: [string] of the Standard Library.
    - Go's [int] is taken to be 64 bits wide (every 64-bit platform); the
      only [int] the code computes with is [placeholderCount], whose
      increment is written with its wrap-around ([int_wrap]).
    - [len] of a slice is [Z.of_nat (length _)].
    - A method with a pointer receiver that only reads the builder is a
      function of the builder; the generators, which call [addPlaceholder],
      are computations in the monad [M]: they thread the builder and may
      panic (Go's [strings.Repeat] panics on a negative count).
    - A Go result [(string, error)] is a pair [string * option error];
      [None] is the [nil] error. *)

From Stdlib Require Import ZArith NArith List Bool Lia.
From Stdlib Require Import Ascii String DecimalString.
Import ListNotations.

Local Open Scope Z_scope.
Local Open Scope string_scope.

(* ================================================================= *)
(** ** Strings: the pieces of Go's library the package uses *)

Module GoStrings.

(** [len(s)] for a string. *)
Definition strlen (s : string) : Z := Z.of_nat (String.length s).

(** [fmt.Sprintf("%d", n)] for a signed integer. *)
Definition itoa (n : Z) : string := NilZero.string_of_int (Z.to_int n).

(** [fmt.Sprintf("%d", n)] for an unsigned integer. *)
Definition utoa (n : N) : string := NilZero.string_of_uint (N.to_uint n).

(** [strings.Split(s, sep)] for a separator of one byte, which is the only
    kind the package passes (["."] and ["/"]): the pieces of [s] between the
    occurrences of [sep], one more piece than there are occurrences. *)
Fixpoint Split (s : string) (sep : ascii) : list string :=
  match s with
  | EmptyString => [EmptyString]
  | String c s' =>
      if Ascii.eqb c sep then EmptyString :: Split s' sep
      else match Split s' sep with
           | [] => [String c EmptyString]
           | piece :: pieces => String c piece :: pieces
           end
  end.

(** [strings.Count(s, sep)] for a separator of one byte. *)
Fixpoint Count (s : string) (sep : ascii) : nat :=
  match s with
  | EmptyString => O
  | String c s' => if Ascii.eqb c sep then S (Count s' sep) else Count s' sep
  end.

(** The string [s] written [n] times. *)
Fixpoint repeat_string (s : string) (n : nat) : string :=
  match n with
  | O => EmptyString
  | S n' => s ++ repeat_string s n'
  end.

Definition maxInt : Z := 2 ^ 63 - 1.

(** [strings.Repeat(s, count)]: it panics when [count] is negative and when
    the length of the result overflows [int]; [inl] carries the panic
    message. *)
Definition Repeat (s : string) (count : Z) : string + string :=
  if (count =? 0)%Z then inr EmptyString
  else if (count =? 1)%Z then inr s
  else if (count <? 0)%Z then inl "strings: negative Repeat count"
  else if (maxInt <? strlen s * count)%Z
       then inl "strings: Repeat output length overflow"
  else inr (repeat_string s (Z.to_nat count)).

(** [strings.ToUpper] on an ASCII string: the letters [a]..[z] are moved to
    [A]..[Z], every other byte is kept.  Go maps a string with a byte of
    128 or more through the Unicode tables instead; that branch is not
    modelled, and [isASCII] marks the strings on which this definition is
    the library's. *)
Definition upper_byte (c : ascii) : ascii :=
  let n := N_of_ascii c in
  if ((97 <=? n) && (n <=? 122))%N then ascii_of_N (n - 32) else c.

Fixpoint ToUpper (s : string) : string :=
  match s with
  | EmptyString => EmptyString
  | String c s' => String (upper_byte c) (ToUpper s')
  end.

Fixpoint isASCII (s : string) : bool :=
  match s with
  | EmptyString => true
  | String c s' => (N_of_ascii c <? 128)%N && isASCII s'
  end.

End GoStrings.
Import GoStrings.

(* ================================================================= *)
(** ** The data model *)

(** [type database int8] with its constants.  [ForDatabase] is exported and
    accepts any value of the type, so the dialect stays a number. *)
Definition database := Z.
Definition MYSQL : database := 0.
Definition SQLITE : database := 1.
Definition POSTGRES : database := 2.
Definition ORACLE : database := 3.

(** [type queryType int8]; the field is set by the four constructors only. *)
Inductive queryType := selectQry | insertQry | updateQry | deleteQry.

(** [type sortOrder int8]; set by [OrderBy] and [OrderByDescending] only. *)
Inductive sortOrder := ascending | descending.

(** A value of type [interface{}]: the generators never look inside one. *)
Inductive value :=
| VNil
| VInt (n : Z)
| VString (s : string)
| VPointer (address : N).

(** The anonymous struct of [joinTables]. *)
Record joinTable := mkJoin {
  j_joinType : string;
  j_table : string;
  j_column : string;
  j_fkey : string
}.

(** The anonymous struct of [criteria]. *)
Record criterion := mkCriterion {
  c_column : string;
  c_operator : string;
  c_values : list value;
  c_or : bool
}.

(** The anonymous struct of [orderBy]. *)
Record order := mkOrder {
  o_column : string;
  o_direction : sortOrder
}.

(** [type Builder struct]; the field [queryType] is [qtype] here, its name
    being taken by its type. *)
Record Builder := mkBuilder {
  db : database;
  placeholderCount : Z;
  qtype : queryType;
  table : string;
  joinTables : list joinTable;
  columns : list string;
  returningColumns : list string;
  values : list value;
  returnValues : list value;
  criteria : list criterion;
  orderBy : list order;
  limit : N;
  offset : N
}.

(** Field updates. *)
Definition with_db (d : database) (qb : Builder) : Builder :=
  mkBuilder d (placeholderCount qb) (qtype qb) (table qb) (joinTables qb)
    (columns qb) (returningColumns qb) (values qb) (returnValues qb)
    (criteria qb) (orderBy qb) (limit qb) (offset qb).

Definition with_placeholderCount (n : Z) (qb : Builder) : Builder :=
  mkBuilder (db qb) n (qtype qb) (table qb) (joinTables qb)
    (columns qb) (returningColumns qb) (values qb) (returnValues qb)
    (criteria qb) (orderBy qb) (limit qb) (offset qb).

Definition with_joinTables (js : list joinTable) (qb : Builder) : Builder :=
  mkBuilder (db qb) (placeholderCount qb) (qtype qb) (table qb) js
    (columns qb) (returningColumns qb) (values qb) (returnValues qb)
    (criteria qb) (orderBy qb) (limit qb) (offset qb).

Definition with_columns (cs : list string) (qb : Builder) : Builder :=
  mkBuilder (db qb) (placeholderCount qb) (qtype qb) (table qb) (joinTables qb)
    cs (returningColumns qb) (values qb) (returnValues qb)
    (criteria qb) (orderBy qb) (limit qb) (offset qb).

Definition with_returningColumns (cs : list string) (qb : Builder) : Builder :=
  mkBuilder (db qb) (placeholderCount qb) (qtype qb) (table qb) (joinTables qb)
    (columns qb) cs (values qb) (returnValues qb)
    (criteria qb) (orderBy qb) (limit qb) (offset qb).

Definition with_values (vs : list value) (qb : Builder) : Builder :=
  mkBuilder (db qb) (placeholderCount qb) (qtype qb) (table qb) (joinTables qb)
    (columns qb) (returningColumns qb) vs (returnValues qb)
    (criteria qb) (orderBy qb) (limit qb) (offset qb).

Definition with_returnValues (vs : list value) (qb : Builder) : Builder :=
  mkBuilder (db qb) (placeholderCount qb) (qtype qb) (table qb) (joinTables qb)
    (columns qb) (returningColumns qb) (values qb) vs
    (criteria qb) (orderBy qb) (limit qb) (offset qb).

Definition with_criteria (cs : list criterion) (qb : Builder) : Builder :=
  mkBuilder (db qb) (placeholderCount qb) (qtype qb) (table qb) (joinTables qb)
    (columns qb) (returningColumns qb) (values qb) (returnValues qb)
    cs (orderBy qb) (limit qb) (offset qb).

Definition with_orderBy (os : list order) (qb : Builder) : Builder :=
  mkBuilder (db qb) (placeholderCount qb) (qtype qb) (table qb) (joinTables qb)
    (columns qb) (returningColumns qb) (values qb) (returnValues qb)
    (criteria qb) os (limit qb) (offset qb).

Definition with_limit (l o : N) (qb : Builder) : Builder :=
  mkBuilder (db qb) (placeholderCount qb) (qtype qb) (table qb) (joinTables qb)
    (columns qb) (returningColumns qb) (values qb) (returnValues qb)
    (criteria qb) (orderBy qb) l o.

(** [len] of a slice. *)
Definition len {A : Type} (l : list A) : Z := Z.of_nat (List.length l).

(* ================================================================= *)
(** ** The errors of the package *)

Record ErrBadColumnsValuesCombo := mkBadCombo {
  columnCount : Z;
  valueCount : Z;
  combo_msg : string
}.

Record ErrInvalidSqlOperator := mkInvalidOperator {
  operator : string;
  operator_msg : string
}.

(** The values an [error] returned by this package can hold. *)
Inductive error :=
| BadColumnsValuesCombo (e : ErrBadColumnsValuesCombo)
| InvalidSqlOperator (e : ErrInvalidSqlOperator)
| ErrFirstCriterionIsOr
| ErrDBEngineDoesNotSupportReturning.

Definition NewBadColumnsValuesComboError (columnCount valueCount : Z) : error :=
  BadColumnsValuesCombo
    (mkBadCombo columnCount valueCount
       ("columns count (" ++ itoa columnCount
        ++ ") must be equal to values count (" ++ itoa valueCount ++ ")")).

Definition NewInvalidOperatorError (operator : string) : error :=
  InvalidSqlOperator
    (mkInvalidOperator operator
       ("operator '" ++ operator ++ "' is an invalid SQL operator")).

(** The method [Error()]. *)
Definition Error (e : error) : string :=
  match e with
  | BadColumnsValuesCombo e' => combo_msg e'
  | InvalidSqlOperator e' => operator_msg e'
  | ErrFirstCriterionIsOr => "the first criterion is an OR"
  | ErrDBEngineDoesNotSupportReturning =>
      "database engine does not support RETURNING clause"
  end.

(* ================================================================= *)
(** ** The configuration methods *)

Definition NewSelect (tableName : string) : Builder :=
  mkBuilder 0 0 selectQry tableName [] [] [] [] [] [] [] 0%N 0%N.

Definition NewInsert (tableName : string) : Builder :=
  mkBuilder 0 0 insertQry tableName [] [] [] [] [] [] [] 0%N 0%N.

Definition NewUpdate (tableName : string) : Builder :=
  mkBuilder 0 0 updateQry tableName [] [] [] [] [] [] [] 0%N 0%N.

Definition NewDelete (tableName : string) : Builder :=
  mkBuilder 0 0 deleteQry tableName [] [] [] [] [] [] [] 0%N 0%N.

Definition ForDatabase (d : database) (qb : Builder) : Builder := with_db d qb.
Definition ForMySQL (qb : Builder) : Builder := ForDatabase MYSQL qb.
Definition ForPostgres (qb : Builder) : Builder := ForDatabase POSTGRES qb.
Definition ForOracle (qb : Builder) : Builder := ForDatabase ORACLE qb.
Definition ForSQLite (qb : Builder) : Builder := ForDatabase SQLITE qb.

(** [Select]: the loop over the variadic [columns]; the two [if]s of the
    body are independent, and a name that splits into three pieces or more
    passes both without an append. *)
Fixpoint Select (names : list string) (qb : Builder) : Builder :=
  match names with
  | [] => qb
  | column :: rest =>
      let tableColumn := Split column "." in
      let qb :=
        if (len tableColumn =? 1)%Z
        then with_columns (columns qb ++ [(table qb ++ "." ++ column)%string])%list qb
        else qb in
      let qb :=
        if (len tableColumn =? 2)%Z
        then with_columns (columns qb ++ [column])%list qb
        else qb in
      Select rest qb
  end.

(** [Returning]: the same loop on [returningColumns]. *)
Fixpoint Returning (names : list string) (qb : Builder) : Builder :=
  match names with
  | [] => qb
  | column :: rest =>
      let tableColumn := Split column "." in
      let qb :=
        if (len tableColumn =? 1)%Z
        then with_returningColumns
               (returningColumns qb ++ [(table qb ++ "." ++ column)%string])%list qb
        else qb in
      let qb :=
        if (len tableColumn =? 2)%Z
        then with_returningColumns (returningColumns qb ++ [column])%list qb
        else qb in
      Returning rest qb
  end.

Definition Limit (l o : N) (qb : Builder) : Builder := with_limit l o qb.

Definition Set_ (names : list string) (qb : Builder) : Builder :=
  with_columns (columns qb ++ names)%list qb.

Definition To (vs : list value) (qb : Builder) : Builder :=
  with_values (values qb ++ vs)%list qb.

Definition Into (vs : list value) (qb : Builder) : Builder :=
  match qtype qb with
  | selectQry => with_values (values qb ++ vs)%list qb
  | _ => with_returnValues (returnValues qb ++ vs)%list qb
  end.

Definition Join (joinType tbl column fkey : string) (qb : Builder) : Builder :=
  with_joinTables (joinTables qb ++ [mkJoin joinType tbl column fkey])%list qb.

Definition Where (column op : string) (vs : list value) (qb : Builder)
  : Builder :=
  with_criteria (criteria qb ++ [mkCriterion column (ToUpper op) vs false])%list qb.

Definition OrWhere (column op : string) (vs : list value) (qb : Builder)
  : Builder :=
  with_criteria (criteria qb ++ [mkCriterion column (ToUpper op) vs true])%list qb.

Definition OrderBy (column : string) (qb : Builder) : Builder :=
  with_orderBy (orderBy qb ++ [mkOrder column ascending])%list qb.

Definition OrderByDescending (column : string) (qb : Builder) : Builder :=
  with_orderBy (orderBy qb ++ [mkOrder column descending])%list qb.

Definition Values (qb : Builder) : list value := values qb.

Definition ReturningValues (qb : Builder) : list value := returnValues qb.

(** [Criteria]: the values of all criteria, in criterion order. *)
Fixpoint criteriaValues (cs : list criterion) (acc : list value) : list value :=
  match cs with
  | [] => acc
  | c :: rest => criteriaValues rest (acc ++ c_values c)%list
  end.

Definition Criteria (qb : Builder) : list value :=
  criteriaValues (criteria qb) [].

(* ================================================================= *)
(** ** Generation: a state monad with panics *)

(** What a call leaves behind: a result and the builder after it, or a
    panic with its message. *)
Inductive outcome (A : Type) :=
| Returns (a : A) (qb : Builder)
| Panics (msg : string).

Arguments Returns {A} a qb.
Arguments Panics {A} msg.

Definition M (A : Type) : Type := Builder -> outcome A.

Definition ret {A : Type} (a : A) : M A := fun qb => Returns a qb.

Definition bind {A B : Type} (m : M A) (k : A -> M B) : M B :=
  fun qb =>
    match m qb with
    | Returns a qb' => k a qb'
    | Panics msg => Panics msg
    end.

(** A method that only reads the builder. *)
Definition reads {A : Type} (f : Builder -> A) : M A :=
  fun qb => Returns (f qb) qb.

(** A library call that may panic. *)
Definition orPanic {A : Type} (r : string + A) : M A :=
  fun qb =>
    match r with
    | inl msg => Panics msg
    | inr a => Returns a qb
    end.

Notation "x <- m ;; k" := (bind m (fun x => k))
  (at level 61, m at next level, right associativity).
Notation "' pat <- m ;; k" := (bind m (fun x => match x with pat => k end))
  (at level 61, pat pattern, m at next level, right associativity).

(** [n + 1] on a 64-bit [int]. *)
Definition int_wrap (z : Z) : Z := (z + 2 ^ 63) mod 2 ^ 64 - 2 ^ 63.

Definition addPlaceholder : M string :=
  fun qb =>
    let qb := with_placeholderCount (int_wrap (placeholderCount qb + 1)) qb in
    Returns
      (if (db qb =? POSTGRES)%Z then "$" ++ itoa (placeholderCount qb)
       else if (db qb =? ORACLE)%Z then ":" ++ itoa (placeholderCount qb)
       else "?")
      qb.

(* ================================================================= *)
(** ** The clause generators *)

Definition validOperators : string := "=/>/</>=/<=/<>/IN/BETWEEN/LIKE".

(** [operatorIsValid]: the loop over the pieces of [validOperators]. *)
Fixpoint operatorIn (op : string) (os : list string) : bool :=
  match os with
  | [] => false
  | o :: rest => if op =? o then true else operatorIn op rest
  end.

Definition operatorIsValid (op : string) : bool :=
  operatorIn op (Split validOperators "/").

(** The loop [for i, column := range cols { qry += column; if i < n-1 { qry
    += "," } }], which [generateSelectClause], [generateReturningClause] and
    [generateInsertClause] each contain; [n] is the length of the whole
    slice and [i] the index reached. *)
Fixpoint columnsLoop (n i : Z) (cols : list string) (qry : string) : string :=
  match cols with
  | [] => qry
  | column :: rest =>
      let qry := qry ++ column in
      let qry := if (i <? n - 1)%Z then qry ++ "," else qry in
      columnsLoop n (i + 1) rest qry
  end.

Definition generateSelectClause (qb : Builder) : string * option error :=
  if negb (len (columns qb) =? len (values qb))%Z
  then ("", Some (NewBadColumnsValuesComboError (len (columns qb)) (len (values qb))))
  else
    let qry := "SELECT " in
    (columnsLoop (len (columns qb)) 0 (columns qb) qry, None).

Definition generateReturningClause (qb : Builder) : string * option error :=
  if (len (returningColumns qb) =? 0)%Z then ("", None)
  else if negb (db qb =? POSTGRES)%Z && negb (db qb =? ORACLE)%Z
  then ("", Some ErrDBEngineDoesNotSupportReturning)
  else if negb (len (returningColumns qb) =? len (returnValues qb))%Z
  then ("", Some (NewBadColumnsValuesComboError
                    (len (returningColumns qb)) (len (returnValues qb))))
  else
    let qry := " RETURNING " in
    (columnsLoop (len (returningColumns qb)) 0 (returningColumns qb) qry, None).

Fixpoint joinLoop (js : list joinTable) (qry : string) : string :=
  match js with
  | [] => qry
  | joinTable :: rest =>
      joinLoop rest
        (qry ++ (" " ++ j_joinType joinTable ++ " JOIN " ++ j_table joinTable
                 ++ " ON " ++ j_column joinTable ++ "=" ++ j_fkey joinTable))
  end.

Definition generateFromAndJoinClause (qb : Builder) : string :=
  let qry := " FROM " ++ table qb in
  joinLoop (joinTables qb) qry.

(** The body of the loop of [generateWhereClause]; [n] is
    [len(qb.criteria)] and [ci] the index reached. *)
Fixpoint whereLoop (n ci : Z) (cs : list criterion) (qry : string)
  : M (string * option error) :=
  match cs with
  | [] => ret (qry, None)
  | criterion :: rest =>
      if (ci =? 0)%Z && c_or criterion
      then ret ("", Some ErrFirstCriterionIsOr)
      else
        let qry :=
          if negb (ci =? 0)%Z && (ci <? n)%Z
          then (if c_or criterion then qry ++ " OR " else qry ++ " AND ")
          else qry in
        if negb (operatorIsValid (c_operator criterion))
        then ret ("", Some (NewInvalidOperatorError (c_operator criterion)))
        else
          let qry := qry ++ c_column criterion in
          let qry :=
            if (c_operator criterion =? "BETWEEN")
               || (c_operator criterion =? "IN")
               || (c_operator criterion =? "LIKE")
            then qry ++ " " else qry in
          let qry := qry ++ c_operator criterion in
          if c_operator criterion =? "LIKE" then
            p <- addPlaceholder ;;
            whereLoop n (ci + 1) rest (qry ++ (" " ++ p))
          else if c_operator criterion =? "BETWEEN" then
            p1 <- addPlaceholder ;;
            p2 <- addPlaceholder ;;
            whereLoop n (ci + 1) rest (qry ++ (" " ++ p1 ++ " AND " ++ p2))
          else if c_operator criterion =? "IN" then
            p1 <- addPlaceholder ;;
            p2 <- addPlaceholder ;;
            r <- orPanic (Repeat ("," ++ p2) (len (c_values criterion) - 1)) ;;
            whereLoop n (ci + 1) rest (qry ++ (" (" ++ p1 ++ r ++ ")"))
          else
            p <- addPlaceholder ;;
            whereLoop n (ci + 1) rest (qry ++ p)
  end.

Definition generateWhereClause : M (string * option error) :=
  fun qb =>
    if (len (criteria qb) =? 0)%Z then Returns ("", None) qb
    else
      let qry := " WHERE " in
      whereLoop (len (criteria qb)) 0 (criteria qb) qry qb.

Fixpoint orderByLoop (n ci : Z) (os : list order) (qry : string) : string :=
  match os with
  | [] => qry
  | order :: rest =>
      let qry := qry ++ o_column order in
      let qry :=
        match o_direction order with
        | descending => qry ++ " DESC"
        | _ => qry ++ " ASC"
        end in
      let qry := if (ci <? n - 1)%Z then qry ++ "," else qry in
      orderByLoop n (ci + 1) rest qry
  end.

Definition generateOrderByClause (qb : Builder) : string :=
  if (len (orderBy qb) =? 0)%Z then ""
  else
    let qry := " ORDER BY " in
    orderByLoop (len (orderBy qb)) 0 (orderBy qb) qry.

Definition generateLimitClause (qb : Builder) : string :=
  if (limit qb =? 0)%N then ""
  else
    let qry := " LIMIT " ++ utoa (limit qb) in
    if (0 <? offset qb)%N then qry ++ ("," ++ utoa (offset qb)) else qry.

(** The loop [for i := range qb.values] of [generateInsertClause]. *)
Fixpoint insertValuesLoop (n i : Z) (vs : list value) (qry : string)
  : M string :=
  match vs with
  | [] => ret qry
  | _ :: rest =>
      p <- addPlaceholder ;;
      let qry := qry ++ p in
      let qry := if (i <? n - 1)%Z then qry ++ "," else qry in
      insertValuesLoop n (i + 1) rest qry
  end.

Definition generateInsertClause : M (string * option error) :=
  fun qb =>
    if negb (len (columns qb) =? len (values qb))%Z
    then Returns ("", Some (NewBadColumnsValuesComboError
                              (len (columns qb)) (len (values qb)))) qb
    else
      let qry := "INSERT INTO " ++ table qb ++ " (" in
      let qry := columnsLoop (len (columns qb)) 0 (columns qb) qry in
      let qry := qry ++ ") VALUES (" in
      (qry <- insertValuesLoop (len (values qb)) 0 (values qb) qry ;;
       let qry := qry ++ ")" in
       ret (qry, None)) qb.

(** The loop [for i, column := range qb.columns] of [generateUpdateClause]. *)
Fixpoint updateLoop (n i : Z) (cols : list string) (qry : string) : M string :=
  match cols with
  | [] => ret qry
  | column :: rest =>
      p <- addPlaceholder ;;
      let qry := qry ++ (column ++ "=" ++ p) in
      let qry := if (i <? n - 1)%Z then qry ++ "," else qry in
      updateLoop n (i + 1) rest qry
  end.

Definition generateUpdateClause : M (string * option error) :=
  fun qb =>
    if negb (len (columns qb) =? len (values qb))%Z
    then Returns ("", Some (NewBadColumnsValuesComboError
                              (len (columns qb)) (len (values qb)))) qb
    else
      let qry := "UPDATE " ++ table qb ++ " SET " in
      (qry <- updateLoop (len (columns qb)) 0 (columns qb) qry ;;
       ret (qry, None)) qb.

Definition generateDeleteClause (qb : Builder) : string :=
  let qry := "DELETE" in
  qry.

(* ================================================================= *)
(** ** The statements *)

Definition generateSelectQry : M (string * option error) :=
  '(qry, err) <- reads generateSelectClause ;;
  match err with
  | Some _ => ret ("", err)
  | None =>
      fromAndJoin <- reads generateFromAndJoinClause ;;
      let qry := qry ++ fromAndJoin in
      '(whereClause, err) <- generateWhereClause ;;
      match err with
      | Some _ => ret ("", err)
      | None =>
          let qry := qry ++ whereClause in
          orderByClause <- reads generateOrderByClause ;;
          let qry := qry ++ orderByClause in
          limitClause <- reads generateLimitClause ;;
          let qry := qry ++ limitClause in
          ret (qry, err)
      end
  end.

Definition generateDeleteQry : M (string * option error) :=
  qry <- reads generateDeleteClause ;;
  fromAndJoin <- reads generateFromAndJoinClause ;;
  let qry := qry ++ fromAndJoin in
  '(whereClause, err) <- generateWhereClause ;;
  match err with
  | Some _ => ret ("", err)
  | None =>
      let qry := qry ++ whereClause in
      '(returningClause, err) <- reads generateReturningClause ;;
      match err with
      | Some _ => ret ("", err)
      | None =>
          let qry := qry ++ returningClause in
          ret (qry, err)
      end
  end.

Definition generateUpdateQry : M (string * option error) :=
  '(qry, err) <- generateUpdateClause ;;
  match err with
  | Some _ => ret ("", err)
  | None =>
      '(whereClause, err) <- generateWhereClause ;;
      match err with
      | Some _ => ret ("", err)
      | None =>
          let qry := qry ++ whereClause in
          '(returningClause, err) <- reads generateReturningClause ;;
          match err with
          | Some _ => ret ("", err)
          | None =>
              let qry := qry ++ returningClause in
              ret (qry, err)
          end
      end
  end.

Definition generateInsertQry : M (string * option error) :=
  '(qry, err) <- generateInsertClause ;;
  match err with
  | Some _ => ret ("", err)
  | None =>
      '(returningClause, err) <- reads generateReturningClause ;;
      match err with
      | Some _ => ret ("", err)
      | None =>
          let qry := qry ++ returningClause in
          ret (qry, None)
      end
  end.

Definition GenerateQuery : M (string * option error) :=
  fun qb =>
    match qtype qb with
    | selectQry => generateSelectQry qb
    | insertQry => generateInsertQry qb
    | updateQry => generateUpdateQry qb
    | deleteQry => generateDeleteQry qb
    end.

(* ================================================================= *)
(** ** Notions used in the statements *)

Definition fourTargets : list value :=
  [VPointer 1; VPointer 2; VPointer 3; VPointer 4].

(** Every generator leaves the builder as it was, up to the counter. *)
Definition sameIntent (qb qb' : Builder) : Prop :=
  qb' = with_placeholderCount (placeholderCount qb') qb.

(** A computation that keeps the intent whatever it returns. *)
Definition keepsIntent {A : Type} (m : M A) : Prop :=
  forall qb a qb', m qb = Returns a qb' -> sameIntent qb qb'.

(** [firstFailure qb e qb']: in the order in which the statement of [qb]
    calls its clause generators, the first one that returns an error returns
    [e], and [qb'] is the builder at that point. *)
Inductive firstFailure (qb : Builder) : error -> Builder -> Prop :=
| ff_select_projection t e :
    qtype qb = selectQry ->
    generateSelectClause qb = (t, Some e) ->
    firstFailure qb e qb
| ff_select_filter t w e qb1 :
    qtype qb = selectQry ->
    generateSelectClause qb = (t, None) ->
    generateWhereClause qb = Returns (w, Some e) qb1 ->
    firstFailure qb e qb1
| ff_insert_mutation t e qb1 :
    qtype qb = insertQry ->
    generateInsertClause qb = Returns (t, Some e) qb1 ->
    firstFailure qb e qb1
| ff_insert_returning t r e qb1 :
    qtype qb = insertQry ->
    generateInsertClause qb = Returns (t, None) qb1 ->
    generateReturningClause qb1 = (r, Some e) ->
    firstFailure qb e qb1
| ff_update_mutation t e qb1 :
    qtype qb = updateQry ->
    generateUpdateClause qb = Returns (t, Some e) qb1 ->
    firstFailure qb e qb1
| ff_update_filter t w e qb1 qb2 :
    qtype qb = updateQry ->
    generateUpdateClause qb = Returns (t, None) qb1 ->
    generateWhereClause qb1 = Returns (w, Some e) qb2 ->
    firstFailure qb e qb2
| ff_update_returning t w r e qb1 qb2 :
    qtype qb = updateQry ->
    generateUpdateClause qb = Returns (t, None) qb1 ->
    generateWhereClause qb1 = Returns (w, None) qb2 ->
    generateReturningClause qb2 = (r, Some e) ->
    firstFailure qb e qb2
| ff_delete_filter w e qb1 :
    qtype qb = deleteQry ->
    generateWhereClause qb = Returns (w, Some e) qb1 ->
    firstFailure qb e qb1
| ff_delete_returning w r e qb1 :
    qtype qb = deleteQry ->
    generateWhereClause qb = Returns (w, None) qb1 ->
    generateReturningClause qb1 = (r, Some e) ->
    firstFailure qb e qb1.

(** An UPDATE whose filter has an illegal operator: the SET clause has been
    rendered and four placeholders allocated when the filter fails, and the
    text returned is empty all the same. *)
Definition update_with_bad_filter : Builder :=
  Where "table1.id" "!=" [VInt 10]
    (To [VString "value1"; VInt 2; VInt 5; VString "value4"]
       (Set_ ["field1"; "field2"; "field3"; "field4"] (NewUpdate "table1"))).

(** [reachesReturning qb t qb1]: the clauses that the statement of [qb]
    generates before its RETURNING clause have returned without error; [t]
    is the text so far and [qb1] the builder at that point.  A SELECT has
    no RETURNING clause. *)
Inductive reachesReturning (qb : Builder) : string -> Builder -> Prop :=
| rr_insert t qb1 :
    qtype qb = insertQry ->
    generateInsertClause qb = Returns (t, None) qb1 ->
    reachesReturning qb t qb1
| rr_update t w qb1 qb2 :
    qtype qb = updateQry ->
    generateUpdateClause qb = Returns (t, None) qb1 ->
    generateWhereClause qb1 = Returns (w, None) qb2 ->
    reachesReturning qb (t ++ w) qb2
| rr_delete w qb1 :
    qtype qb = deleteQry ->
    generateWhereClause qb = Returns (w, None) qb1 ->
    reachesReturning qb
      ((generateDeleteClause qb ++ generateFromAndJoinClause qb) ++ w) qb1.

(** The INSERT of the package's test, with its RETURNING clause, on Postgres
    and on SQLite. *)
Definition insert_returning (d : database) : Builder :=
  Into [VPointer 1; VPointer 2]
    (Returning ["id"; "field1"]
       (To [VString "value1"; VInt 2; VInt 5; VString "value4"]
          (Set_ ["field1"; "field2"; "field3"; "field4"]
             (ForDatabase d (NewInsert "table1"))))).


(** The text that one iteration of the loop of [generateWhereClause]
    appends for its criterion after the combinator: the column, the
    operator and the placeholders. *)
Definition criterionText (criterion : criterion) : M string :=
  let qry := c_column criterion in
  let qry :=
    if (c_operator criterion =? "BETWEEN")
       || (c_operator criterion =? "IN")
       || (c_operator criterion =? "LIKE")
    then qry ++ " " else qry in
  let qry := qry ++ c_operator criterion in
  if c_operator criterion =? "LIKE" then
    p <- addPlaceholder ;; ret (qry ++ (" " ++ p))
  else if c_operator criterion =? "BETWEEN" then
    p1 <- addPlaceholder ;;
    p2 <- addPlaceholder ;;
    ret (qry ++ (" " ++ p1 ++ " AND " ++ p2))
  else if c_operator criterion =? "IN" then
    p1 <- addPlaceholder ;;
    p2 <- addPlaceholder ;;
    r <- orPanic (Repeat ("," ++ p2) (len (c_values criterion) - 1)) ;;
    ret (qry ++ (" (" ++ p1 ++ r ++ ")"))
  else
    p <- addPlaceholder ;; ret (qry ++ p).

(** The loop of [generateWhereClause] read by position rather than by
    index.  [laterCriteria cs qry]: what the criteria [cs], none of which is
    the first of the clause, add to the text [qry]; each comes behind its
    combinator. *)
Fixpoint laterCriteria (cs : list criterion) (qry : string)
  : M (string * option error) :=
  match cs with
  | [] => ret (qry, None)
  | c :: rest =>
      if negb (operatorIsValid (c_operator c))
      then ret ("", Some (NewInvalidOperatorError (c_operator c)))
      else
        t <- criterionText c ;;
        laterCriteria rest
          (qry ++ (if c_or c then " OR " else " AND ") ++ t)
  end.

(** [whereByPosition cs]: the clause of the sequence [cs]; the first
    criterion has no combinator before it and must not be an OR.
    [generateWhereClause_by_position] shows that this is what the loop
    computes. *)
Definition whereByPosition (cs : list criterion) : M (string * option error) :=
  match cs with
  | [] => ret ("", None)
  | c :: rest =>
      if c_or c then ret ("", Some ErrFirstCriterionIsOr)
      else if negb (operatorIsValid (c_operator c))
      then ret ("", Some (NewInvalidOperatorError (c_operator c)))
      else
        t <- criterionText c ;;
        laterCriteria rest (" WHERE " ++ t)
  end.

(** The whitelist of the specification. *)
Definition whitelist : list string :=
  ["="; ">"; "<"; ">="; "<="; "<>"; "IN"; "BETWEEN"; "LIKE"].

(** The outcome [o] with its builder changed by [f]. *)
Definition onBuilder {A : Type} (f : Builder -> Builder) (o : outcome A)
  : outcome A :=
  match o with
  | Returns a qb => Returns a (f qb)
  | Panics msg => Panics msg
  end.

(** The test of the package with the operator ["ins"]. *)
Definition select_with_ins : Builder :=
  Where "table1.field2" "ins" [VInt 1; VInt 2; VInt 3]
    (Where "table1.field1" "=" [VString "value1"]
       (Into fourTargets
          (Select ["field1"; "field2"; "field3"; "field4"]
             (NewSelect "table1")))).

(** A DELETE with two criteria, the second an OR. *)
Definition delete_with_or : Builder :=
  OrWhere "table1.field2" "like" [VString "v%"]
    (Where "table1.field1" "=" [VString "value1"]
       (ForPostgres (NewDelete "table1"))).

(** A filter with the operator IN on [k] values, on the dialect [d]. *)
Definition delete_in (d : database) (vs : list value) : Builder :=
  Where "table1.field2" "in" vs (ForDatabase d (NewDelete "table1")).

(* ================================================================= *)
(** ** The placeholders, as the specification words them

    These definitions follow sections 4.2 and 4.3 of the specification, not
    the code: every bound value has its own placeholder, and the
    placeholders are numbered in the order of the bound values.  They are
    compared with the generators below. *)

(** The token of the placeholder number [n] (the table of section 4.3). *)
Definition specToken (d : database) (n : Z) : string :=
  if (d =? POSTGRES)%Z then "$" ++ itoa n
  else if (d =? ORACLE)%Z then ":" ++ itoa n
  else "?".

(** The tokens of [k] successive bound values, of which [from] come
    before: their numbers are [from + 1] to [from + k]. *)
Fixpoint specTokens (d : database) (from : Z) (k : nat) : list string :=
  match k with
  | O => []
  | S k' => specToken d (from + 1) :: specTokens d (from + 1) k'
  end.

(** The bound values of a statement in the order in which its clauses are
    emitted: the mutation values, then the filter values in the order of the
    criteria.  An INSERT has no filter clause, and the values of a SELECT
    are the targets of its projection, which have no placeholder. *)
Definition boundValues (qb : Builder) : list value :=
  match qtype qb with
  | insertQry => values qb
  | updateQry => (values qb ++ Criteria qb)%list
  | _ => Criteria qb
  end.

(** [INSERT INTO <table> (<col1>,...) VALUES (<ph1>,<ph2>,...)]. *)
Definition specInsert (qb : Builder) (from : Z) : string :=
  "INSERT INTO " ++ table qb ++ " (" ++ String.concat "," (columns qb)
  ++ ") VALUES ("
  ++ String.concat "," (specTokens (db qb) from (List.length (values qb)))
  ++ ")".

(** [<col1>=<ph1>], [<col2>=<ph2>], ... *)
Fixpoint specAssignments (cols toks : list string) : list string :=
  match cols, toks with
  | c :: cs, t :: ts => (c ++ "=" ++ t) :: specAssignments cs ts
  | _, _ => []
  end.

(** [UPDATE <table> SET <col1>=<ph1>,<col2>=<ph2>,...]. *)
Definition specUpdate (qb : Builder) (from : Z) : string :=
  "UPDATE " ++ table qb ++ " SET "
  ++ String.concat ","
       (specAssignments (columns qb)
          (specTokens (db qb) from (List.length (values qb)))).

(** One criterion, of which the first value is the bound value number
    [from + 1]. *)
Definition specCriterion (d : database) (from : Z) (c : criterion) : string :=
  if c_operator c =? "LIKE" then
    c_column c ++ " LIKE " ++ specToken d (from + 1)
  else if c_operator c =? "BETWEEN" then
    c_column c ++ " BETWEEN " ++ specToken d (from + 1)
    ++ " AND " ++ specToken d (from + 2)
  else if c_operator c =? "IN" then
    c_column c ++ " IN ("
    ++ String.concat "," (specTokens d from (List.length (c_values c))) ++ ")"
  else
    c_column c ++ c_operator c ++ specToken d (from + 1).

(** The criteria after the first, each behind its combinator. *)
Fixpoint specLater (d : database) (from : Z) (cs : list criterion) : string :=
  match cs with
  | [] => ""
  | c :: rest =>
      (if c_or c then " OR " else " AND ") ++ specCriterion d from c
      ++ specLater d (from + len (c_values c)) rest
  end.

Definition specWhere (d : database) (from : Z) (cs : list criterion) : string :=
  match cs with
  | [] => ""
  | c :: rest =>
      " WHERE " ++ specCriterion d from c
      ++ specLater d (from + len (c_values c)) rest
  end.

(** The text of the statement when [from] placeholders were allocated
    before the call.  The clauses without placeholders are those of the
    code. *)
Definition specText (qb : Builder) (from : Z) : string :=
  match qtype qb with
  | selectQry =>
      "SELECT " ++ String.concat "," (columns qb)
      ++ generateFromAndJoinClause qb
      ++ specWhere (db qb) from (criteria qb)
      ++ generateOrderByClause qb ++ generateLimitClause qb
  | insertQry =>
      specInsert qb from ++ fst (generateReturningClause qb)
  | updateQry =>
      specUpdate qb from
      ++ specWhere (db qb) (from + len (values qb)) (criteria qb)
      ++ fst (generateReturningClause qb)
  | deleteQry =>
      generateDeleteClause qb ++ generateFromAndJoinClause qb
      ++ specWhere (db qb) from (criteria qb)
      ++ fst (generateReturningClause qb)
  end.

(** A criterion that has as many values as its operator has placeholders:
    two for BETWEEN, one for LIKE and for the comparisons.  IN is left
    out. *)
Definition oneTokenPerValue (c : criterion) : bool :=
  operatorIsValid (c_operator c)
  && negb (c_operator c =? "IN")
  && (if c_operator c =? "BETWEEN"
      then Nat.eqb (List.length (c_values c)) 2
      else Nat.eqb (List.length (c_values c)) 1).

Definition firstIsAnd (cs : list criterion) : bool :=
  match cs with
  | [] => true
  | c :: _ => negb (c_or c)
  end.

(** A DELETE whose BETWEEN criterion was given three values. *)
Definition delete_between3 : Builder :=
  Where "b" "=" [VInt 7]
    (Where "a" "between" [VInt 1; VInt 5; VInt 9]
       (ForPostgres (NewDelete "t"))).

(** An UPDATE with three values and a BETWEEN filter, on Postgres. *)
Definition update_between : Builder :=
  Where "id" "between" [VInt 10; VInt 20]
    (To [VString "v1"; VInt 2; VInt 5]
       (Set_ ["f1"; "f2"; "f3"] (ForPostgres (NewUpdate "t")))).

(* ================================================================= *)
(** ** Notions used in the further properties *)

(** The strings of a list, written one after the other. *)
Definition concatAll (l : list string) : string :=
  fold_right String.append "" l.

(** What the loop of [generateFromAndJoinClause] adds for one join. *)
Definition joinText (j : joinTable) : string :=
  " " ++ j_joinType j ++ " JOIN " ++ j_table j
  ++ " ON " ++ j_column j ++ "=" ++ j_fkey j.

(** What the loop of [generateOrderByClause] writes for one order, without
    the comma. *)
Definition orderText (o : order) : string :=
  o_column o
  ++ match o_direction o with
     | descending => " DESC"
     | ascending => " ASC"
     end.

(** A SELECT with two joins, a filter, two orders and a limit. *)
Definition joined_select : Builder :=
  Limit 10 50
    (OrderByDescending "table1.field2"
       (OrderBy "table1.field1"
          (Where "table1.field1" "=" [VString "value1"]
             (Join "LEFT" "table3" "table3.table1_id" "table1.id"
                (Join "LEFT" "table2" "table2.table1_id" "table1.id"
                   (Into [VPointer 1; VPointer 2]
                      (Select ["field1"; "table2.field5"]
                         (NewSelect "table1")))))))).

(** The number of calls of the allocator in the text of one criterion: two
    in the BETWEEN and IN branches, one in the others. *)
Definition placeholdersOf (c : criterion) : Z :=
  if (c_operator c =? "BETWEEN") || (c_operator c =? "IN") then 2 else 1.

Fixpoint placeholdersOfAll (cs : list criterion) : Z :=
  match cs with
  | [] => 0
  | c :: rest => placeholdersOf c + placeholdersOfAll rest
  end.

(** The number of calls of the allocator in a generation that returns
    without error: one for each value of an INSERT, one for each column of
    an UPDATE, and those of the criteria of the statements that have a
    filter clause. *)
Definition allocated (qb : Builder) : Z :=
  match qtype qb with
  | insertQry => len (values qb)
  | updateQry => len (columns qb) + placeholdersOfAll (criteria qb)
  | _ => placeholdersOfAll (criteria qb)
  end.

(** What a call hands back to its caller: the pair returned, or the panic;
    the builder is left out. *)
Definition result {A : Type} (o : outcome A) : string + A :=
  match o with
  | Returns a _ => inr a
  | Panics msg => inl msg
  end.

(** Two outcomes that agree: the same panic, or the same result with
    builders related by [R]. *)
Definition agree {A : Type} (R : Builder -> Builder -> Prop)
           (o1 o2 : outcome A) : Prop :=
  match o1, o2 with
  | Returns a q1, Returns b q2 => a = b /\ R q1 q2
  | Panics m1, Panics m2 => m1 = m2
  | _, _ => False
  end.

(** A computation that cannot tell builders related by [R] apart. *)
Definition respects {A : Type} (R : Builder -> Builder -> Prop) (m : M A)
  : Prop :=
  forall q1 q2, R q1 q2 -> agree R (m q1) (m q2).

(** Two builders of a dialect without numbers that differ in the counter
    at most. *)
Definition sameButCounter (q1 q2 : Builder) : Prop :=
  db q1 <> POSTGRES /\ db q1 <> ORACLE
  /\ with_placeholderCount 0 q1 = with_placeholderCount 0 q2.

(** The builder without the fields that its statement never reads: a SELECT
    has no RETURNING clause; an INSERT has no source, filter, order and
    limit clause; an UPDATE has no source, order and limit clause; a DELETE
    has no projection, order and limit clause and checks no arity. *)
Definition statementView (qb : Builder) : Builder :=
  match qtype qb with
  | selectQry => with_returningColumns [] (with_returnValues [] qb)
  | insertQry =>
      with_joinTables [] (with_criteria [] (with_orderBy [] (with_limit 0 0 qb)))
  | updateQry => with_joinTables [] (with_orderBy [] (with_limit 0 0 qb))
  | deleteQry =>
      with_columns [] (with_values [] (with_orderBy [] (with_limit 0 0 qb)))
  end.

Definition sameStatement (q1 q2 : Builder) : Prop :=
  statementView q1 = statementView q2.

Definition sameStatementOf (k : queryType) (q1 q2 : Builder) : Prop :=
  qtype q1 = k /\ sameStatement q1 q2.

(** An INSERT on which a filter with an illegal operator, a join, an order
    and a limit were configured. *)
Definition insert_with_filter : Builder :=
  Limit 10 0
    (OrderBy "field1"
       (Join "LEFT" "table2" "table2.id" "table1.id"
          (OrWhere "field1" "!=" [VInt 1]
             (To [VString "value1"; VInt 2]
                (Set_ ["field1"; "field2"] (NewInsert "table1")))))).

(** What justifies an error returned for the builder [qb]. *)
Definition justified (qb : Builder) (e : error) : Prop :=
  match e with
  | BadColumnsValuesCombo b =>
      (qtype qb <> deleteQry
       /\ List.length (columns qb) <> List.length (values qb)
       /\ columnCount b = len (columns qb)
       /\ valueCount b = len (values qb))
      \/ (qtype qb <> selectQry
          /\ (db qb = POSTGRES \/ db qb = ORACLE)
          /\ List.length (returningColumns qb)
             <> List.length (returnValues qb)
          /\ columnCount b = len (returningColumns qb)
          /\ valueCount b = len (returnValues qb))
  | InvalidSqlOperator o =>
      qtype qb <> insertQry
      /\ exists c, In c (criteria qb)
                   /\ operator o = c_operator c
                   /\ ~ In (c_operator c) whitelist
  | ErrFirstCriterionIsOr =>
      qtype qb <> insertQry
      /\ exists c rest, criteria qb = c :: rest /\ c_or c = true
  | ErrDBEngineDoesNotSupportReturning =>
      qtype qb <> selectQry
      /\ returningColumns qb <> []
      /\ db qb <> POSTGRES /\ db qb <> ORACLE
  end.

(** [k] successive calls of the allocator, and the tokens they return. *)
Fixpoint allocate (k : nat) : M (list string) :=
  match k with
  | O => ret []
  | S k' =>
      p <- addPlaceholder ;;
      ps <- allocate k' ;;
      ret (p :: ps)
  end.

(** What [Select] and [Returning] store for one name on the table [tbl]. *)
Definition storedName (tbl name : string) : list string :=
  match Count name "." with
  | O => [tbl ++ "." ++ name]
  | S O => [name]
  | _ => []
  end.

(** The words a statement of each kind starts with. *)
Definition leadingWords (qb : Builder) : string :=
  match qtype qb with
  | selectQry => "SELECT "
  | insertQry => "INSERT INTO " ++ table qb ++ " ("
  | updateQry => "UPDATE " ++ table qb ++ " SET "
  | deleteQry => "DELETE FROM " ++ table qb
  end.
(* ================================================================= *)
(** ** The tests of the package, evaluated *)

Example test_simple_select :
  GenerateQuery
    (Into fourTargets
       (Select ["field1"; "field2"; "field3"; "field4"] (NewSelect "table1")))
  = Returns
      ("SELECT table1.field1,table1.field2,table1.field3,table1.field4 FROM table1",
       None)
      (Into fourTargets
         (Select ["field1"; "field2"; "field3"; "field4"] (NewSelect "table1"))).
Proof. reflexivity. Qed.

Example test_select_with_joins :
  match
    GenerateQuery
      (Where "table1.field3" "BETWEEN" [VInt 1; VInt 10]
         (Where "table1.field2" "IN" [VInt 1; VInt 2; VInt 3; VInt 4]
            (Where "table1.field1" "=" [VString "value1"]
               (Join "LEFT" "table3" "table3.table1_id" "table1.id"
                  (Join "LEFT" "table2" "table2.table1_id" "table1.id"
                     (Into (fourTargets ++ [VPointer 5; VPointer 6])%list
                        (Select ["field1"; "field2"; "field3"; "field4";
                                 "table2.field5"; "table3.field6"]
                           (NewSelect "table1"))))))))
  with
  | Returns (qry, err) _ =>
      qry = "SELECT table1.field1,table1.field2,table1.field3,table1.field4,table2.field5,table3.field6 FROM table1 LEFT JOIN table2 ON table2.table1_id=table1.id LEFT JOIN table3 ON table3.table1_id=table1.id WHERE table1.field1=? AND table1.field2 IN (?,?,?,?) AND table1.field3 BETWEEN ? AND ?"
      /\ err = None
  | Panics _ => False
  end.
Proof. vm_compute. split; reflexivity. Qed.

Example test_select_order_limit :
  match
    GenerateQuery
      (Limit 10 50
         (OrderByDescending "table1.field2"
            (OrderBy "table1.field1"
               (Where "table1.field1" "=" [VString "value1"]
                  (Into fourTargets
                     (Select ["field1"; "field2"; "field3"; "field4"]
                        (NewSelect "table1")))))))
  with
  | Returns (qry, err) _ =>
      qry = "SELECT table1.field1,table1.field2,table1.field3,table1.field4 FROM table1 WHERE table1.field1=? ORDER BY table1.field1 ASC,table1.field2 DESC LIMIT 10,50"
      /\ err = None
  | Panics _ => False
  end.
Proof. vm_compute. split; reflexivity. Qed.

Example test_insert_postgres_returning :
  match
    GenerateQuery
      (Into [VPointer 1; VPointer 2]
         (Returning ["id"; "field1"]
            (To [VString "value1"; VInt 2; VInt 5; VString "value4"]
               (Set_ ["field1"; "field2"; "field3"; "field4"]
                  (ForDatabase POSTGRES (NewInsert "table1"))))))
  with
  | Returns (qry, err) qb' =>
      qry = "INSERT INTO table1 (field1,field2,field3,field4) VALUES ($1,$2,$3,$4) RETURNING table1.id,table1.field1"
      /\ err = None /\ placeholderCount qb' = 4
  | Panics _ => False
  end.
Proof. vm_compute. repeat split; reflexivity. Qed.

Example test_update :
  match
    GenerateQuery
      (Where "table1.id" "=" [VInt 10]
         (To [VString "value1"; VInt 2; VInt 5; VString "value4"]
            (Set_ ["field1"; "field2"; "field3"; "field4"]
               (ForOracle (NewUpdate "table1")))))
  with
  | Returns (qry, err) _ =>
      qry = "UPDATE table1 SET field1=:1,field2=:2,field3=:3,field4=:4 WHERE table1.id=:5"
      /\ err = None
  | Panics _ => False
  end.
Proof. vm_compute. split; reflexivity. Qed.

Example test_delete_invalid_operator :
  GenerateQuery (Where "table1.field1" "!=" [VString "value1"] (NewDelete "table1"))
  = Returns ("", Some (NewInvalidOperatorError "!="))
      (Where "table1.field1" "!=" [VString "value1"] (NewDelete "table1")).
Proof. reflexivity. Qed.

(* ================================================================= *)
(** ** Basic facts: strings, lengths, the counter *)

Section StringFacts.

Lemma append_nil_r (s : string) : s ++ "" = s.
Proof. induction s as [|c s IH]; simpl; [reflexivity | now rewrite IH]. Qed.

Lemma append_assoc (s1 s2 s3 : string) : (s1 ++ s2) ++ s3 = s1 ++ s2 ++ s3.
Proof. induction s1 as [|c s1 IH]; simpl; [reflexivity | now rewrite IH]. Qed.

Lemma append_inv_head (s t1 t2 : string) : s ++ t1 = s ++ t2 -> t1 = t2.
Proof.
  induction s as [|c s IH]; simpl; intros H; [exact H|].
  injection H as H. now apply IH.
Qed.

(** [Split] returns one piece more than [sep] occurs. *)
Lemma Split_length (s : string) (sep : ascii) :
  List.length (Split s sep) = S (Count s sep).
Proof.
  induction s as [|c s IH]; simpl; [reflexivity|].
  destruct (Ascii.eqb c sep); simpl.
  - now rewrite IH.
  - destruct (Split s sep) as [|p ps]; simpl in *; [discriminate | exact IH].
Qed.

End StringFacts.

(** Reassociate the appends of the goal to the right.  The instances are
    found by syntax: a literal is never taken for an append. *)
Ltac string_assoc :=
  repeat match goal with
         | |- context [(?a ++ ?b) ++ ?c] => rewrite (append_assoc a b c)
         end.

Lemma len_nil {A : Type} : len (@nil A) = 0%Z.
Proof. reflexivity. Qed.

Lemma len_cons {A : Type} (a : A) (l : list A) : len (a :: l) = (len l + 1)%Z.
Proof. unfold len. simpl List.length. lia. Qed.

Lemma len_nonneg {A : Type} (l : list A) : (0 <= len l)%Z.
Proof. unfold len. lia. Qed.

Lemma len_eqb {A B : Type} (l : list A) (l' : list B) :
  (len l =? len l')%Z = Nat.eqb (List.length l) (List.length l').
Proof.
  unfold len. destruct (Nat.eqb_spec (List.length l) (List.length l')) as [E|E].
  - rewrite E. apply Z.eqb_refl.
  - apply Z.eqb_neq. lia.
Qed.

Lemma len_zero {A : Type} (l : list A) : (len l =? 0)%Z = true <-> l = [].
Proof.
  destruct l as [|a l]; [now split|].
  rewrite len_cons. split; [|discriminate].
  intros H. apply Z.eqb_eq in H. pose proof (len_nonneg l). lia.
Qed.

Lemma int_wrap_small (z : Z) :
  (- 2 ^ 63 <= z < 2 ^ 63)%Z -> int_wrap z = z.
Proof.
  intros H. unfold int_wrap. rewrite Z.mod_small; lia.
Qed.

(** The loop over column names writes them separated by commas. *)
Lemma columnsLoop_concat (n i : Z) (cols : list string) (qry : string) :
  (i + len cols = n)%Z ->
  columnsLoop n i cols qry = qry ++ String.concat "," cols.
Proof.
  revert i qry. induction cols as [|c cols IH]; intros i qry H.
  - simpl. now rewrite append_nil_r.
  - rewrite len_cons in H. cbn [columnsLoop].
    destruct cols as [|c' cols].
    + rewrite len_nil in H.
      replace (i <? n - 1)%Z with false by (symmetry; apply Z.ltb_ge; lia).
      reflexivity.
    + pose proof (len_nonneg cols) as Hn. rewrite len_cons in H.
      replace (i <? n - 1)%Z with true by (symmetry; apply Z.ltb_lt; lia).
      rewrite IH by (rewrite len_cons; lia).
      cbn [String.concat]. string_assoc. reflexivity.
Qed.

Lemma sameIntent_refl (qb : Builder) : sameIntent qb qb.
Proof. now destruct qb. Qed.

Lemma sameIntent_trans (q1 q2 q3 : Builder) :
  sameIntent q1 q2 -> sameIntent q2 q3 -> sameIntent q1 q3.
Proof.
  unfold sameIntent. intros H12 H23. rewrite H23 at 1. rewrite H12 at 1.
  now destruct q1.
Qed.

Lemma keepsIntent_ret {A : Type} (a : A) : keepsIntent (ret a).
Proof.
  intros qb a' qb' H. injection H as _ <-. apply sameIntent_refl.
Qed.

Lemma keepsIntent_bind {A B : Type} (m : M A) (k : A -> M B) :
  keepsIntent m -> (forall a, keepsIntent (k a)) -> keepsIntent (bind m k).
Proof.
  intros Hm Hk qb b qb' H. unfold bind in H.
  destruct (m qb) as [a q1|msg] eqn:E; [|discriminate].
  eapply sameIntent_trans; [eapply Hm, E | eapply Hk, H].
Qed.

Lemma keepsIntent_reads {A : Type} (f : Builder -> A) : keepsIntent (reads f).
Proof.
  intros qb a qb' H. injection H as _ <-. apply sameIntent_refl.
Qed.

Lemma keepsIntent_orPanic {A : Type} (r : string + A) : keepsIntent (orPanic r).
Proof.
  intros qb a qb' H. unfold orPanic in H. destruct r; [discriminate|].
  injection H as _ <-. apply sameIntent_refl.
Qed.

Lemma keepsIntent_addPlaceholder : keepsIntent addPlaceholder.
Proof.
  intros qb a qb' H. unfold addPlaceholder in H. injection H as _ <-.
  now destruct qb.
Qed.

Create HintDb intent.
#[local] Hint Resolve keepsIntent_ret keepsIntent_reads keepsIntent_orPanic
  keepsIntent_addPlaceholder : intent.

Ltac intent_step :=
  match goal with
  | |- keepsIntent (bind _ _) => apply keepsIntent_bind; [|intro]
  | |- keepsIntent (if ?b then _ else _) => destruct b
  | |- keepsIntent (match ?x with (_, _) => _ end) => destruct x
  | |- keepsIntent (match ?x with Some _ => _ | None => _ end) => destruct x
  | |- keepsIntent _ => solve [auto with intent]
  end.

Lemma keepsIntent_whereLoop (n ci : Z) (cs : list criterion) (qry : string) :
  keepsIntent (whereLoop n ci cs qry).
Proof.
  revert ci qry. induction cs as [|c cs IH]; intros ci qry; cbn [whereLoop].
  - auto with intent.
  - repeat (intent_step || apply IH).
Qed.

Lemma keepsIntent_generateWhereClause : keepsIntent generateWhereClause.
Proof.
  intros qb a qb' H. unfold generateWhereClause in H.
  destruct (len (criteria qb) =? 0)%Z.
  - injection H as _ <-. apply sameIntent_refl.
  - eapply keepsIntent_whereLoop, H.
Qed.

Lemma keepsIntent_insertValuesLoop (n i : Z) (vs : list value) (qry : string) :
  keepsIntent (insertValuesLoop n i vs qry).
Proof.
  revert i qry. induction vs as [|v vs IH]; intros i qry; cbn [insertValuesLoop].
  - auto with intent.
  - repeat (intent_step || apply IH).
Qed.

Lemma keepsIntent_updateLoop (n i : Z) (cols : list string) (qry : string) :
  keepsIntent (updateLoop n i cols qry).
Proof.
  revert i qry. induction cols as [|c cols IH]; intros i qry; cbn [updateLoop].
  - auto with intent.
  - repeat (intent_step || apply IH).
Qed.

Lemma keepsIntent_generateInsertClause : keepsIntent generateInsertClause.
Proof.
  intros qb a qb' H. unfold generateInsertClause in H.
  destruct (negb _).
  - injection H as _ <-. apply sameIntent_refl.
  - revert H. apply keepsIntent_bind.
    + apply keepsIntent_insertValuesLoop.
    + intro. auto with intent.
Qed.

Lemma keepsIntent_generateUpdateClause : keepsIntent generateUpdateClause.
Proof.
  intros qb a qb' H. unfold generateUpdateClause in H.
  destruct (negb _).
  - injection H as _ <-. apply sameIntent_refl.
  - revert H. apply keepsIntent_bind.
    + apply keepsIntent_updateLoop.
    + intro. auto with intent.
Qed.

(** The clauses without placeholders do not read the counter. *)
Lemma generateReturningClause_sameIntent (qb qb' : Builder) :
  sameIntent qb qb' -> generateReturningClause qb' = generateReturningClause qb.
Proof. intros ->. reflexivity. Qed.

(* ================================================================= *)
(** ** Fail-fast generation *)

Ltac unfold_statements :=
  unfold GenerateQuery, generateSelectQry, generateInsertQry,
    generateUpdateQry, generateDeleteQry, bind, reads, ret in *.

Lemma error_has_first_failure (qb qb' : Builder) (qry : string) (e : error) :
  GenerateQuery qb = Returns (qry, Some e) qb' ->
  qry = "" /\ firstFailure qb e qb'.
Proof.
  intros H. unfold_statements.
  destruct (qtype qb) eqn:K.
  - destruct (generateSelectClause qb) as [t [e1|]] eqn:E1.
    + injection H as <- <- <-. split; [reflexivity|]. eapply ff_select_projection; eauto.
    + destruct (generateWhereClause qb) as [[w [e2|]] q1|m] eqn:E2;
        try discriminate.
      injection H as <- <- <-. split; [reflexivity|]. eapply ff_select_filter; eauto.
  - destruct (generateInsertClause qb) as [[t [e1|]] q1|m] eqn:E1;
      try discriminate.
    + injection H as <- <- <-. split; [reflexivity|]. eapply ff_insert_mutation; eauto.
    + destruct (generateReturningClause q1) as [r [e2|]] eqn:E2;
        try discriminate.
      injection H as <- <- <-. split; [reflexivity|]. eapply ff_insert_returning; eauto.
  - destruct (generateUpdateClause qb) as [[t [e1|]] q1|m] eqn:E1;
      try discriminate.
    + injection H as <- <- <-. split; [reflexivity|]. eapply ff_update_mutation; eauto.
    + destruct (generateWhereClause q1) as [[w [e2|]] q2|m] eqn:E2;
        try discriminate.
      * injection H as <- <- <-. split; [reflexivity|].
        eapply ff_update_filter; eauto.
      * destruct (generateReturningClause q2) as [r [e3|]] eqn:E3;
          try discriminate.
        injection H as <- <- <-. split; [reflexivity|].
        eapply ff_update_returning; eauto.
  - destruct (generateWhereClause qb) as [[w [e1|]] q1|m] eqn:E1;
      try discriminate.
    + injection H as <- <- <-. split; [reflexivity|]. eapply ff_delete_filter; eauto.
    + destruct (generateReturningClause q1) as [r [e2|]] eqn:E2;
        try discriminate.
      injection H as <- <- <-. split; [reflexivity|].
      eapply ff_delete_returning; eauto.
Qed.

Lemma first_failure_aborts (qb qb' : Builder) (e : error) :
  firstFailure qb e qb' -> GenerateQuery qb = Returns ("", Some e) qb'.
Proof.
  intros H. unfold_statements.
  destruct H;
    repeat match goal with
           | E : ?l = _ |- context [?l] => rewrite E
           end; reflexivity.
Qed.

(** C5. Whenever [GenerateQuery] returns a non-nil error the text it returns
    is the empty string, for every builder and statement kind; the error is
    that of the first clause that fails, in the order of the statement, and
    the builder is the one this clause left: nothing after it runs.
    Conversely a failing clause makes the whole call return [("", err)]. *)
Theorem C5_error_returns_empty_text (qb qb' : Builder) (qry : string) (e : error) :
  (GenerateQuery qb = Returns (qry, Some e) qb' ->
   qry = "" /\ firstFailure qb e qb')
  /\ (firstFailure qb e qb' -> GenerateQuery qb = Returns ("", Some e) qb').
Proof.
  split; [apply error_has_first_failure | apply first_failure_aborts].
Qed.

Lemma C5_witness :
  GenerateQuery update_with_bad_filter
  = Returns ("", Some (NewInvalidOperatorError "!="))
      (with_placeholderCount 4 update_with_bad_filter)
  /\ ("" = "" /\
      firstFailure update_with_bad_filter (NewInvalidOperatorError "!=")
        (with_placeholderCount 4 update_with_bad_filter)).
Proof.
  split; [reflexivity|].
  apply (proj1 (C5_error_returns_empty_text update_with_bad_filter
                  (with_placeholderCount 4 update_with_bad_filter) ""
                  (NewInvalidOperatorError "!="))).
  reflexivity.
Defined.

(* ================================================================= *)
(** ** Column-value arity *)

(** C7. When the number of columns differs from the number of values, a
    SELECT, an INSERT and an UPDATE return the empty string and the arity
    error, which carries the two counts: the column count and the value
    count.  The builder is unchanged: no placeholder has been allocated. *)
Theorem C7_arity_mismatch_error (qb : Builder) :
  qtype qb <> deleteQry ->
  List.length (columns qb) <> List.length (values qb) ->
  exists e : ErrBadColumnsValuesCombo,
    GenerateQuery qb = Returns ("", Some (BadColumnsValuesCombo e)) qb
    /\ columnCount e = len (columns qb)
    /\ valueCount e = len (values qb)
    /\ BadColumnsValuesCombo e
       = NewBadColumnsValuesComboError (len (columns qb)) (len (values qb)).
Proof.
  intros K H.
  eexists (mkBadCombo (len (columns qb)) (len (values qb)) _).
  split; [|repeat split].
  assert (E : (len (columns qb) =? len (values qb))%Z = false).
  { rewrite len_eqb. now apply Nat.eqb_neq. }
  unfold_statements.
  destruct (qtype qb); try congruence.
  - unfold generateSelectClause. rewrite E. reflexivity.
  - unfold generateInsertClause. rewrite E. reflexivity.
  - unfold generateUpdateClause. rewrite E. reflexivity.
Qed.

Lemma C7_witness :
  exists e : ErrBadColumnsValuesCombo,
    GenerateQuery (To [VString "value1"; VInt 2; VInt 5]
                     (Set_ ["field1"; "field2"; "field3"; "field4"]
                        (NewInsert "table1")))
    = Returns ("", Some (BadColumnsValuesCombo e))
        (To [VString "value1"; VInt 2; VInt 5]
           (Set_ ["field1"; "field2"; "field3"; "field4"] (NewInsert "table1")))
    /\ columnCount e = 4%Z
    /\ valueCount e = 3%Z
    /\ BadColumnsValuesCombo e = NewBadColumnsValuesComboError 4 3.
Proof.
  apply (C7_arity_mismatch_error
           (To [VString "value1"; VInt 2; VInt 5]
              (Set_ ["field1"; "field2"; "field3"; "field4"]
                 (NewInsert "table1")))).
  - discriminate.
  - simpl. lia.
Defined.

(* ================================================================= *)
(** ** The degenerate SELECT *)



(* ================================================================= *)
(** ** The RETURNING clause *)

Lemma reachesReturning_sameIntent (qb qb1 : Builder) (t : string) :
  reachesReturning qb t qb1 -> sameIntent qb qb1.
Proof.
  intros H. destruct H as [t q1 K E|t w q1 q2 K E1 E2|w q1 K E].
  - eapply keepsIntent_generateInsertClause, E.
  - eapply sameIntent_trans.
    + eapply keepsIntent_generateUpdateClause, E1.
    + eapply keepsIntent_generateWhereClause, E2.
  - eapply keepsIntent_generateWhereClause, E.
Qed.

(** Once the RETURNING clause is reached, its result decides the result of
    the statement. *)
Lemma GenerateQuery_returning (qb qb1 : Builder) (t : string) :
  reachesReturning qb t qb1 ->
  GenerateQuery qb
  = match generateReturningClause qb with
    | (r, None) => Returns (t ++ r, None) qb1
    | (_, Some e) => Returns ("", Some e) qb1
    end.
Proof.
  intros H. pose proof (reachesReturning_sameIntent _ _ _ H) as S.
  apply generateReturningClause_sameIntent in S.
  unfold_statements.
  destruct H as [t q1 K E|t w q1 q2 K E1 E2|w q1 K E]; rewrite K.
  - rewrite E, S. now destruct (generateReturningClause qb) as [r [e|]].
  - rewrite E1, E2, S. now destruct (generateReturningClause qb) as [r [e|]].
  - rewrite E, S. now destruct (generateReturningClause qb) as [r [e|]].
Qed.

(** C6. The RETURNING clause of a builder:
    - with no returning column it is the empty string and no error, whatever
      the dialect and the return values;
    - with a returning column and a dialect other than Postgres and Oracle
      (MySQL, which is the default, SQLite, or any other number) it is the
      Unsupported-Returning error, whatever the arity;
    - with a returning column, Postgres or Oracle, and as many return values
      as returning columns, it is [" RETURNING "] followed by the columns
      separated by commas.
    In an INSERT, UPDATE or DELETE whose earlier clauses returned the text
    [t] without error, the statement then fails with that error and the empty
    string, or returns [t] with the clause appended. *)
Theorem C6_returning_clause (qb : Builder) :
  (returningColumns qb = [] -> generateReturningClause qb = ("", None))
  /\ (returningColumns qb <> [] ->
      db qb <> POSTGRES -> db qb <> ORACLE ->
      generateReturningClause qb = ("", Some ErrDBEngineDoesNotSupportReturning)
      /\ forall t qb1, reachesReturning qb t qb1 ->
           GenerateQuery qb
           = Returns ("", Some ErrDBEngineDoesNotSupportReturning) qb1)
  /\ (returningColumns qb <> [] ->
      db qb = POSTGRES \/ db qb = ORACLE ->
      List.length (returningColumns qb) = List.length (returnValues qb) ->
      generateReturningClause qb
      = (" RETURNING " ++ String.concat "," (returningColumns qb), None)
      /\ forall t qb1, reachesReturning qb t qb1 ->
           GenerateQuery qb
           = Returns
               (t ++ " RETURNING " ++ String.concat "," (returningColumns qb),
                None) qb1).
Proof.
  assert (Z0 : returningColumns qb <> [] ->
               (len (returningColumns qb) =? 0)%Z = false).
  { intros H. destruct (len (returningColumns qb) =? 0)%Z eqn:E; [|reflexivity].
    apply len_zero in E. contradiction. }
  split; [|split].
  - intros H. unfold generateReturningClause. now rewrite H.
  - intros H Hp Ho.
    assert (G : generateReturningClause qb
                = ("", Some ErrDBEngineDoesNotSupportReturning)).
    { unfold generateReturningClause. rewrite (Z0 H).
      apply Z.eqb_neq in Hp, Ho. now rewrite Hp, Ho. }
    split; [exact G|].
    intros t qb1 R. rewrite (GenerateQuery_returning _ _ _ R), G. reflexivity.
  - intros H Hd Hl.
    assert (G : generateReturningClause qb
                = (" RETURNING " ++ String.concat "," (returningColumns qb), None)).
    { unfold generateReturningClause. rewrite (Z0 H).
      replace (negb (db qb =? POSTGRES)%Z && negb (db qb =? ORACLE)%Z)
        with false
        by (destruct Hd as [-> | ->]; reflexivity).
      rewrite len_eqb, Hl, Nat.eqb_refl. cbn [negb].
      now rewrite columnsLoop_concat by lia. }
    split; [exact G|].
    intros t qb1 R. rewrite (GenerateQuery_returning _ _ _ R), G. reflexivity.
Qed.

Lemma C6_witness :
  GenerateQuery (insert_returning SQLITE)
  = Returns ("", Some ErrDBEngineDoesNotSupportReturning)
      (with_placeholderCount 4 (insert_returning SQLITE))
  /\ GenerateQuery (insert_returning POSTGRES)
     = Returns
         ("INSERT INTO table1 (field1,field2,field3,field4) VALUES ($1,$2,$3,$4)"
          ++ " RETURNING " ++ String.concat "," ["table1.id"; "table1.field1"],
          None)
         (with_placeholderCount 4 (insert_returning POSTGRES))
  /\ generateReturningClause (NewInsert "table1") = ("", None).
Proof.
  split; [|split].
  - refine (proj2 (proj1 (proj2 (C6_returning_clause (insert_returning SQLITE)))
                     _ _ _) _ _ _);
      try discriminate.
    apply rr_insert; reflexivity.
  - refine (proj2 (proj2 (proj2 (C6_returning_clause (insert_returning POSTGRES)))
                     _ _ _) _ _ _);
      try discriminate; try reflexivity.
    + left; reflexivity.
    + apply rr_insert; reflexivity.
  - apply (proj1 (C6_returning_clause (NewInsert "table1"))). reflexivity.
Defined.

(* ================================================================= *)
(** ** The WHERE clause, criterion by criterion *)

Lemma addPlaceholder_returns (qb : Builder) :
  exists p qb', addPlaceholder qb = Returns p qb'.
Proof. unfold addPlaceholder. eauto. Qed.

Ltac run_placeholder :=
  match goal with
  | |- context [addPlaceholder ?q] =>
      let p := fresh "p" in
      let q' := fresh "q" in
      let E := fresh "E" in
      destruct (addPlaceholder_returns q) as (p & q' & E); rewrite E
  end.

(** One iteration of the loop: the checks, the combinator, then the text of
    the criterion. *)
Lemma whereLoop_step (n ci : Z) (c : criterion) (rest : list criterion)
      (qry : string) (qb : Builder) :
  whereLoop n ci (c :: rest) qry qb
  = if (ci =? 0)%Z && c_or c then Returns ("", Some ErrFirstCriterionIsOr) qb
    else if negb (operatorIsValid (c_operator c))
    then Returns ("", Some (NewInvalidOperatorError (c_operator c))) qb
    else
      (t <- criterionText c ;;
       whereLoop n (ci + 1) rest
         ((if negb (ci =? 0)%Z && (ci <? n)%Z
           then (if c_or c then qry ++ " OR " else qry ++ " AND ")
           else qry) ++ t)) qb.
Proof.
  cbn [whereLoop]. unfold criterionText.
  destruct ((ci =? 0)%Z && c_or c); [reflexivity|].
  destruct (negb (operatorIsValid (c_operator c))); [reflexivity|].
  set (q := if negb (ci =? 0)%Z && (ci <? n)%Z then _ else qry).
  destruct (c_operator c =? "LIKE"), (c_operator c =? "BETWEEN"),
    (c_operator c =? "IN");
    cbn [orb]; unfold bind, ret, orPanic;
    repeat run_placeholder;
    try match goal with |- context [Repeat ?s ?k] => destruct (Repeat s k) end;
    string_assoc; reflexivity.
Qed.

(** After the first criterion the loop is [laterCriteria]. *)
Lemma whereLoop_later (n ci : Z) (cs : list criterion) (qry : string)
      (qb : Builder) :
  (1 <= ci)%Z -> (ci + len cs <= n)%Z ->
  whereLoop n ci cs qry qb = laterCriteria cs qry qb.
Proof.
  revert ci qry qb. induction cs as [|c cs IH]; intros ci qry qb H1 Hn.
  - reflexivity.
  - rewrite whereLoop_step. cbn [laterCriteria].
    rewrite len_cons in Hn. pose proof (len_nonneg cs) as Hl.
    replace (ci =? 0)%Z with false by (symmetry; apply Z.eqb_neq; lia).
    replace (ci <? n)%Z with true by (symmetry; apply Z.ltb_lt; lia).
    cbn [andb negb].
    destruct (negb (operatorIsValid (c_operator c))); [reflexivity|].
    unfold bind. destruct (criterionText c qb) as [t q1|m]; [|reflexivity].
    rewrite IH by lia.
    destruct (c_or c); string_assoc; reflexivity.
Qed.

Lemma generateWhereClause_by_position (qb : Builder) :
  generateWhereClause qb = whereByPosition (criteria qb) qb.
Proof.
  unfold generateWhereClause.
  destruct (criteria qb) as [|c rest] eqn:E; [reflexivity|].
  replace (len (c :: rest) =? 0)%Z with false
    by (symmetry; apply Z.eqb_neq; rewrite len_cons;
        pose proof (len_nonneg rest); lia).
  rewrite whereLoop_step. cbn [whereByPosition Z.eqb andb negb].
  destruct (c_or c); [reflexivity|].
  destruct (negb (operatorIsValid (c_operator c))); [reflexivity|].
  unfold bind. destruct (criterionText c qb) as [t q1|m]; [|reflexivity].
  apply whereLoop_later; [lia|]. rewrite len_cons. lia.
Qed.

(** The criteria after a prefix run from where the prefix stopped. *)
Lemma laterCriteria_app (pre post : list criterion) (qry : string)
      (qb : Builder) :
  laterCriteria (pre ++ post)%list qry qb
  = match laterCriteria pre qry qb with
    | Returns (q1, None) qb1 => laterCriteria post q1 qb1
    | other => other
    end.
Proof.
  revert qry qb. induction pre as [|c pre IH]; intros qry qb.
  - reflexivity.
  - cbn [laterCriteria app].
    destruct (negb (operatorIsValid (c_operator c))); [reflexivity|].
    unfold bind. destruct (criterionText c qb) as [t q1|m]; [|reflexivity].
    apply IH.
Qed.

Lemma whereByPosition_app (c0 : criterion) (pre post : list criterion)
      (qb : Builder) :
  whereByPosition ((c0 :: pre) ++ post)%list qb
  = match whereByPosition (c0 :: pre) qb with
    | Returns (q1, None) qb1 => laterCriteria post q1 qb1
    | other => other
    end.
Proof.
  cbn [whereByPosition app].
  destruct (c_or c0); [reflexivity|].
  destruct (negb (operatorIsValid (c_operator c0))); [reflexivity|].
  unfold bind. destruct (criterionText c0 qb) as [t q1|m]; [|reflexivity].
  apply laterCriteria_app.
Qed.

(** The unfolding equations, with the two results of a check as the two
    branches. *)
Lemma laterCriteria_cons (c : criterion) (cs : list criterion) (qry : string)
      (qb : Builder) :
  laterCriteria (c :: cs) qry qb
  = if operatorIsValid (c_operator c)
    then match criterionText c qb with
         | Returns t q1 =>
             laterCriteria cs
               (qry ++ (if c_or c then " OR " else " AND ") ++ t) q1
         | Panics m => Panics m
         end
    else Returns ("", Some (NewInvalidOperatorError (c_operator c))) qb.
Proof.
  cbn [laterCriteria]. destruct (operatorIsValid (c_operator c)); reflexivity.
Qed.

Lemma whereByPosition_cons (c : criterion) (cs : list criterion)
      (qb : Builder) :
  whereByPosition (c :: cs) qb
  = if c_or c then Returns ("", Some ErrFirstCriterionIsOr) qb
    else if operatorIsValid (c_operator c)
    then match criterionText c qb with
         | Returns t q1 => laterCriteria cs (" WHERE " ++ t) q1
         | Panics m => Panics m
         end
    else Returns ("", Some (NewInvalidOperatorError (c_operator c))) qb.
Proof.
  cbn [whereByPosition].
  destruct (c_or c); [reflexivity|].
  destruct (operatorIsValid (c_operator c)); reflexivity.
Qed.



Lemma operatorIn_In (op : string) (os : list string) :
  operatorIn op os = true <-> In op os.
Proof.
  induction os as [|o os IH]; cbn [operatorIn In].
  - split; [discriminate | contradiction].
  - destruct (String.eqb_spec op o) as [E|E].
    + split; auto.
    + rewrite IH. split; [auto | intros [E'|H]; [congruence | exact H]].
Qed.

Lemma operatorIsValid_whitelist (op : string) :
  operatorIsValid op = true <-> In op whitelist.
Proof. unfold operatorIsValid. apply operatorIn_In. Qed.

(** The generators of the WHERE clause read the dialect and the counter
    only: the criteria stored in the builder they run on do not matter. *)
Lemma addPlaceholder_with_criteria (X : list criterion) (qb : Builder) :
  addPlaceholder (with_criteria X qb)
  = onBuilder (with_criteria X) (addPlaceholder qb).
Proof. reflexivity. Qed.

Lemma criterionText_with_criteria (X : list criterion) (c : criterion)
      (qb : Builder) :
  criterionText c (with_criteria X qb)
  = onBuilder (with_criteria X) (criterionText c qb).
Proof.
  unfold criterionText.
  destruct (c_operator c =? "LIKE"), (c_operator c =? "BETWEEN"),
    (c_operator c =? "IN");
    cbn [orb]; unfold bind, ret, orPanic;
    rewrite addPlaceholder_with_criteria;
    destruct (addPlaceholder_returns qb) as (p1 & q1 & E1); rewrite E1;
    cbn [onBuilder];
    try (rewrite addPlaceholder_with_criteria;
         destruct (addPlaceholder_returns q1) as (p2 & q2 & E2); rewrite E2;
         cbn [onBuilder]);
    try match goal with |- context [Repeat ?s ?k] => destruct (Repeat s k) end;
    reflexivity.
Qed.

Lemma laterCriteria_with_criteria (X cs : list criterion) (qry : string)
      (qb : Builder) :
  laterCriteria cs qry (with_criteria X qb)
  = onBuilder (with_criteria X) (laterCriteria cs qry qb).
Proof.
  revert qry qb. induction cs as [|c cs IH]; intros qry qb.
  - reflexivity.
  - rewrite !laterCriteria_cons, criterionText_with_criteria.
    destruct (operatorIsValid (c_operator c)); [|reflexivity].
    destruct (criterionText c qb) as [t q1|m]; [|reflexivity].
    cbn [onBuilder]. apply IH.
Qed.

Lemma whereByPosition_with_criteria (X cs : list criterion) (qb : Builder) :
  whereByPosition cs (with_criteria X qb)
  = onBuilder (with_criteria X) (whereByPosition cs qb).
Proof.
  destruct cs as [|c cs]; [reflexivity|].
  rewrite !whereByPosition_cons, criterionText_with_criteria.
  destruct (c_or c); [reflexivity|].
  destruct (operatorIsValid (c_operator c)); [|reflexivity].
  destruct (criterionText c qb) as [t q1|m]; [|reflexivity].
  cbn [onBuilder]. apply laterCriteria_with_criteria.
Qed.

Lemma generateWhereClause_with_criteria (cs : list criterion) (qb : Builder) :
  generateWhereClause (with_criteria cs qb)
  = onBuilder (with_criteria cs) (whereByPosition cs qb).
Proof.
  rewrite generateWhereClause_by_position.
  apply whereByPosition_with_criteria.
Qed.

Lemma keepsIntent_criterionText (c : criterion) :
  keepsIntent (criterionText c).
Proof. unfold criterionText. repeat intent_step. Qed.

Lemma keepsIntent_laterCriteria (cs : list criterion) (qry : string) :
  keepsIntent (laterCriteria cs qry).
Proof.
  revert qry. induction cs as [|c cs IH]; intros qry; cbn [laterCriteria].
  - auto with intent.
  - repeat (intent_step || apply keepsIntent_criterionText || apply IH).
Qed.

Lemma keepsIntent_whereByPosition (cs : list criterion) :
  keepsIntent (whereByPosition cs).
Proof.
  destruct cs as [|c cs]; cbn [whereByPosition].
  - auto with intent.
  - repeat (intent_step || apply keepsIntent_criterionText
            || apply keepsIntent_laterCriteria).
Qed.

Lemma sameIntent_restore (qb qb1 : Builder) (X : list criterion) :
  sameIntent qb qb1 ->
  with_criteria (criteria qb) (with_criteria X qb1) = qb1.
Proof. intros ->. reflexivity. Qed.


(* ================================================================= *)
(** ** The operator whitelist *)



(* ================================================================= *)
(** ** The first criterion and the combinators *)

(** C9. A WHERE clause whose first criterion is an OR fails with the
    First-Criterion-Is-Or error and the empty string, before anything else
    is checked and before any placeholder is allocated; so does the
    statement that reaches its WHERE clause: a DELETE always, a SELECT whose
    projection passes the arity check, an UPDATE whose SET clause has been
    generated.  The clause of a single criterion that is not an OR is
    [" WHERE "] followed by the text of the criterion, with no combinator.
    The clause of a sequence extended by one more criterion is the clause of
    the sequence, followed by [" OR "] or [" AND "] according to the new
    criterion, followed by the text of the new criterion. *)
Theorem C9_first_or_and_combinators (qb : Builder) :
  (forall c rest,
      criteria qb = c :: rest -> c_or c = true ->
      generateWhereClause qb = Returns ("", Some ErrFirstCriterionIsOr) qb
      /\ (qtype qb = deleteQry ->
          GenerateQuery qb = Returns ("", Some ErrFirstCriterionIsOr) qb)
      /\ (qtype qb = selectQry ->
          List.length (columns qb) = List.length (values qb) ->
          GenerateQuery qb = Returns ("", Some ErrFirstCriterionIsOr) qb)
      /\ (qtype qb = updateQry ->
          forall t qb1,
            generateUpdateClause qb = Returns (t, None) qb1 ->
            GenerateQuery qb = Returns ("", Some ErrFirstCriterionIsOr) qb1))
  /\ (forall c,
        criteria qb = [c] -> c_or c = false ->
        operatorIsValid (c_operator c) = true ->
        generateWhereClause qb
        = match criterionText c qb with
          | Returns t qb1 => Returns (" WHERE " ++ t, None) qb1
          | Panics msg => Panics msg
          end)
  /\ (forall pre c,
        criteria qb = (pre ++ [c])%list -> pre <> [] ->
        generateWhereClause qb
        = match generateWhereClause (with_criteria pre qb) with
          | Returns (w, None) qb1 =>
              if operatorIsValid (c_operator c)
              then match criterionText c (with_criteria (criteria qb) qb1) with
                   | Returns t qb2 =>
                       Returns
                         (w ++ (if c_or c then " OR " else " AND ") ++ t, None)
                         qb2
                   | Panics msg => Panics msg
                   end
              else Returns ("", Some (NewInvalidOperatorError (c_operator c)))
                     (with_criteria (criteria qb) qb1)
          | Returns (w, Some e) qb1 =>
              Returns (w, Some e) (with_criteria (criteria qb) qb1)
          | Panics msg => Panics msg
          end).
Proof.
  split; [|split].
  - intros c rest Hcr Hor.
    assert (W : forall q, sameIntent qb q ->
                  generateWhereClause q
                  = Returns ("", Some ErrFirstCriterionIsOr) q).
    { intros q S. rewrite generateWhereClause_by_position.
      replace (criteria q) with (criteria qb) by (rewrite S; reflexivity).
      rewrite Hcr, whereByPosition_cons, Hor. reflexivity. }
    split; [apply W, sameIntent_refl|].
    split; [|split].
    + intros K. apply first_failure_aborts.
      eapply ff_delete_filter; [exact K | apply W, sameIntent_refl].
    + intros K Hl. apply first_failure_aborts.
      eapply ff_select_filter; [exact K | | apply W, sameIntent_refl].
      unfold generateSelectClause.
      rewrite len_eqb, Hl, Nat.eqb_refl. reflexivity.
    + intros K t qb1 U. apply first_failure_aborts.
      eapply ff_update_filter; [exact K | exact U |].
      apply W. eapply keepsIntent_generateUpdateClause, U.
  - intros c Hcr Hor V.
    rewrite generateWhereClause_by_position, Hcr, whereByPosition_cons, Hor, V.
    destruct (criterionText c qb) as [t q1|m]; reflexivity.
  - intros pre c Hcr Hne.
    destruct pre as [|c0 pre']; [contradiction|].
    rewrite generateWhereClause_with_criteria.
    replace (generateWhereClause qb)
      with (whereByPosition ((c0 :: pre') ++ [c])%list qb)
      by (rewrite generateWhereClause_by_position, Hcr; reflexivity).
    rewrite whereByPosition_app.
    destruct (whereByPosition (c0 :: pre') qb) as [[w [e|]] qx|m] eqn:E;
      cbn [onBuilder]; [| |reflexivity];
      rewrite (sameIntent_restore qb qx (c0 :: pre'))
        by (eapply keepsIntent_whereByPosition, E);
      [reflexivity|].
    rewrite laterCriteria_cons.
    destruct (operatorIsValid (c_operator c)); [|reflexivity].
    destruct (criterionText c qx) as [t q2|m]; reflexivity.
Qed.

Lemma C9_witness :
  GenerateQuery
    (OrWhere "table1.field1" "=" [VString "value1"] (NewDelete "table1"))
  = Returns ("", Some ErrFirstCriterionIsOr)
      (OrWhere "table1.field1" "=" [VString "value1"] (NewDelete "table1"))
  /\ generateWhereClause delete_with_or
     = Returns (" WHERE table1.field1=$1" ++ " OR " ++ "table1.field2 LIKE $2",
                None)
         (with_placeholderCount 2 delete_with_or).
Proof.
  split.
  - refine (proj1 (proj2 (proj1 (C9_first_or_and_combinators _) _ _ _ _)) _);
      reflexivity.
  - rewrite (proj2 (proj2 (C9_first_or_and_combinators delete_with_or))
               [mkCriterion "table1.field1" "=" [VString "value1"] false]
               (mkCriterion "table1.field2" "LIKE" [VString "v%"] true));
      [reflexivity | reflexivity | discriminate].
Defined.

(* ================================================================= *)
(** ** Column names with dots *)

Lemma Select_app (pre post : list string) (qb : Builder) :
  Select (pre ++ post)%list qb = Select post (Select pre qb).
Proof.
  revert qb. induction pre as [|name pre IH]; intros qb; [reflexivity|].
  cbn [app Select]. apply IH.
Qed.

Lemma Returning_app (pre post : list string) (qb : Builder) :
  Returning (pre ++ post)%list qb = Returning post (Returning pre qb).
Proof.
  revert qb. induction pre as [|name pre IH]; intros qb; [reflexivity|].
  cbn [app Returning]. apply IH.
Qed.

Lemma Split_len (name : string) (sep : ascii) :
  len (Split name sep) = (Z.of_nat (Count name sep) + 1)%Z.
Proof. unfold len. rewrite Split_length. lia. Qed.

(** What [Select] and [Returning] do with one name, by its number of dots. *)
Lemma Select_one (name : string) (qb : Builder) :
  Select [name] qb
  = match Count name "." with
    | O => with_columns (columns qb ++ [(table qb ++ "." ++ name)%string])%list qb
    | S O => with_columns (columns qb ++ [name])%list qb
    | _ => qb
    end.
Proof.
  cbn [Select]. rewrite Split_len.
  destruct (Count name ".") as [|[|k]]; [reflexivity | reflexivity |].
  replace (Z.of_nat (S (S k)) + 1 =? 1)%Z with false
    by (symmetry; apply Z.eqb_neq; lia).
  replace (Z.of_nat (S (S k)) + 1 =? 2)%Z with false
    by (symmetry; apply Z.eqb_neq; lia).
  reflexivity.
Qed.

Lemma Returning_one (name : string) (qb : Builder) :
  Returning [name] qb
  = match Count name "." with
    | O => with_returningColumns
             (returningColumns qb ++ [(table qb ++ "." ++ name)%string])%list qb
    | S O => with_returningColumns (returningColumns qb ++ [name])%list qb
    | _ => qb
    end.
Proof.
  cbn [Returning]. rewrite Split_len.
  destruct (Count name ".") as [|[|k]]; [reflexivity | reflexivity |].
  replace (Z.of_nat (S (S k)) + 1 =? 1)%Z with false
    by (symmetry; apply Z.eqb_neq; lia).
  replace (Z.of_nat (S (S k)) + 1 =? 2)%Z with false
    by (symmetry; apply Z.eqb_neq; lia).
  reflexivity.
Qed.

(** C3, as the code has it.  A name with more than one dot is not stored:
    [Select] and [Returning] behave as if the name had not been passed,
    whatever comes before and after it in the call.  A name with exactly one
    dot is appended unchanged, and a name without a dot is appended with the
    table in front. *)
Theorem C3_names_with_two_dots_are_dropped (qb : Builder) (name : string) :
  ((1 < Count name ".")%nat ->
   forall pre post,
     Select (pre ++ name :: post)%list qb = Select (pre ++ post)%list qb
     /\ Returning (pre ++ name :: post)%list qb
        = Returning (pre ++ post)%list qb)
  /\ (Count name "." = 1%nat ->
      Select [name] qb = with_columns (columns qb ++ [name])%list qb
      /\ Returning [name] qb
         = with_returningColumns (returningColumns qb ++ [name])%list qb)
  /\ (Count name "." = 0%nat ->
      Select [name] qb
      = with_columns (columns qb ++ [(table qb ++ "." ++ name)%string])%list qb
      /\ Returning [name] qb
         = with_returningColumns
             (returningColumns qb ++ [(table qb ++ "." ++ name)%string])%list qb).
Proof.
  split; [|split].
  - intros H pre post.
    change (name :: post) with ([name] ++ post)%list.
    rewrite !Select_app, !Returning_app, Select_one, Returning_one.
    destruct (Count name ".") as [|[|k]]; [lia | lia | split; reflexivity].
  - intros H. rewrite Select_one, Returning_one, H. split; reflexivity.
  - intros H. rewrite Select_one, Returning_one, H. split; reflexivity.
Qed.

Lemma C3_witness :
  Select (["field1"] ++ "db.table1.field2" :: ["table2.field3"])%list
    (NewSelect "table1")
  = with_columns ["table1.field1"; "table2.field3"] (NewSelect "table1")
  /\ Returning (["id"] ++ "db.table1.field2" :: [])%list (NewInsert "table1")
     = with_returningColumns ["table1.id"] (NewInsert "table1").
Proof.
  destruct (proj1 (C3_names_with_two_dots_are_dropped
                     (NewSelect "table1") "db.table1.field2")
              ltac:(cbn; lia) ["field1"] ["table2.field3"]) as [S _].
  destruct (proj1 (C3_names_with_two_dots_are_dropped
                     (NewInsert "table1") "db.table1.field2")
              ltac:(cbn; lia) ["id"] []) as [_ R].
  split; [rewrite S | rewrite R]; reflexivity.
Defined.

(** C3 as stated fails: the name [db.table1.field2], with two dots, is not
    appended to [columns], nor to [returningColumns]. *)
Lemma C3_counterexample :
  Count "db.table1.field2" "." = 2%nat
  /\ columns (Select ["db.table1.field2"] (NewSelect "table1"))
     <> (columns (NewSelect "table1") ++ ["db.table1.field2"])%list
  /\ returningColumns (Returning ["db.table1.field2"] (NewInsert "table1"))
     <> (returningColumns (NewInsert "table1") ++ ["db.table1.field2"])%list.
Proof. repeat split; discriminate. Qed.

(* ================================================================= *)
(** ** The operator IN *)

(** Whatever the number of values, an IN criterion calls the allocator
    twice. *)
Lemma in_advances_counter_twice (c : criterion) (qb qb' : Builder) (t : string) :
  c_operator c = "IN" ->
  criterionText c qb = Returns t qb' ->
  placeholderCount qb'
  = int_wrap (int_wrap (placeholderCount qb + 1) + 1).
Proof.
  intros Hop. unfold criterionText. rewrite Hop.
  cbn [String.eqb Ascii.eqb Bool.eqb orb].
  unfold bind, ret, orPanic, addPlaceholder.
  match goal with |- context [Repeat ?s ?k] => destruct (Repeat s k) end;
    [discriminate|].
  intros H. injection H as _ <-. reflexivity.
Qed.

(** An IN criterion without a value panics. *)
Lemma in_without_value_panics (c : criterion) (qb : Builder) :
  c_operator c = "IN" -> c_values c = [] ->
  criterionText c qb = Panics "strings: negative Repeat count".
Proof.
  intros Hop Hv. unfold criterionText. rewrite Hop, Hv.
  cbn [String.eqb Ascii.eqb Bool.eqb orb].
  unfold bind, ret, orPanic.
  repeat run_placeholder. reflexivity.
Qed.

(** C1, evaluated.  With three values on Postgres the criterion is rendered
    [IN ($1,$2,$2)] and the counter is 2 after the call; with one value it is
    rendered [IN ($1)] and the counter is 2 as well; on the default dialect
    three values give [IN (?,?,?)] and the counter is 2. *)
Theorem C1_in_calls_the_allocator_twice :
  GenerateQuery (delete_in POSTGRES [VInt 1; VInt 2; VInt 3])
  = Returns ("DELETE FROM table1 WHERE table1.field2 IN ($1,$2,$2)", None)
      (with_placeholderCount 2 (delete_in POSTGRES [VInt 1; VInt 2; VInt 3]))
  /\ GenerateQuery (delete_in POSTGRES [VInt 1])
     = Returns ("DELETE FROM table1 WHERE table1.field2 IN ($1)", None)
         (with_placeholderCount 2 (delete_in POSTGRES [VInt 1]))
  /\ GenerateQuery (delete_in MYSQL [VInt 1; VInt 2; VInt 3])
     = Returns ("DELETE FROM table1 WHERE table1.field2 IN (?,?,?)", None)
         (with_placeholderCount 2 (delete_in MYSQL [VInt 1; VInt 2; VInt 3])).
Proof. repeat split; vm_compute; reflexivity. Qed.

(** C4, evaluated.  An IN criterion without a value makes the generation
    panic in [strings.Repeat], whose count is [-1]: nothing is returned. *)
Theorem C4_in_without_value_panics :
  GenerateQuery (delete_in MYSQL [])
  = Panics "strings: negative Repeat count"
  /\ GenerateQuery
       (Where "table1.field2" "in" []
          (Into fourTargets
             (Select ["field1"; "field2"; "field3"; "field4"]
                (ForPostgres (NewSelect "table1")))))
     = Panics "strings: negative Repeat count".
Proof. split; vm_compute; reflexivity. Qed.

(* ================================================================= *)
(** ** Placeholders and bound values *)

Lemma with_placeholderCount_id (qb : Builder) :
  with_placeholderCount (placeholderCount qb) qb = qb.
Proof. now destruct qb. Qed.

(** The allocator, away from the overflow of the counter. *)
Lemma addPlaceholder_spec (qb : Builder) (c : Z) :
  (- 2 ^ 63 <= c + 1 < 2 ^ 63)%Z ->
  addPlaceholder (with_placeholderCount c qb)
  = Returns (specToken (db qb) (c + 1)) (with_placeholderCount (c + 1) qb).
Proof.
  intros H. unfold addPlaceholder.
  cbn [placeholderCount with_placeholderCount db].
  rewrite (int_wrap_small _ H). reflexivity.
Qed.

Lemma specTokens_cons (d : database) (from : Z) (k : nat) :
  specTokens d from (S k) = specToken d (from + 1) :: specTokens d (from + 1) k.
Proof. reflexivity. Qed.

Lemma concat_cons2 (sep x y : string) (l : list string) :
  String.concat sep (x :: y :: l) = x ++ sep ++ String.concat sep (y :: l).
Proof. reflexivity. Qed.

Lemma insertValuesLoop_spec (vs : list value) :
  forall (n i : Z) (qry : string) (c : Z) (qb : Builder),
    (i + len vs = n)%Z ->
    (- 2 ^ 63 <= c)%Z -> (c + len vs < 2 ^ 63)%Z ->
    insertValuesLoop n i vs qry (with_placeholderCount c qb)
    = Returns
        (qry ++ String.concat "," (specTokens (db qb) c (List.length vs)))
        (with_placeholderCount (c + len vs) qb).
Proof.
  induction vs as [|v vs IH]; intros n i qry c qb Hn Hlo Hhi.
  - cbn [insertValuesLoop List.length specTokens String.concat].
    rewrite append_nil_r, len_nil, Z.add_0_r. reflexivity.
  - rewrite len_cons in Hn, Hhi. pose proof (len_nonneg vs) as Hl.
    cbn [insertValuesLoop]. unfold bind.
    rewrite addPlaceholder_spec by lia.
    replace (c + len (v :: vs))%Z with (c + 1 + len vs)%Z
      by (rewrite len_cons; lia).
    cbn [List.length]. rewrite specTokens_cons.
    destruct vs as [|v' vs].
    + replace (i <? n - 1)%Z with false
        by (symmetry; apply Z.ltb_ge; rewrite len_nil in Hn; lia).
      rewrite IH with (n := n) by (rewrite ?len_nil in *; lia).
      cbn [List.length specTokens String.concat].
      rewrite append_nil_r. reflexivity.
    + replace (i <? n - 1)%Z with true
        by (symmetry; apply Z.ltb_lt; rewrite len_cons in Hn;
            pose proof (len_nonneg vs); lia).
      rewrite IH with (n := n) by lia.
      cbn [List.length]. rewrite (specTokens_cons _ (c + 1)), concat_cons2.
      string_assoc. reflexivity.
Qed.

Lemma updateLoop_spec (cols : list string) :
  forall (n i : Z) (qry : string) (c : Z) (qb : Builder),
    (i + len cols = n)%Z ->
    (- 2 ^ 63 <= c)%Z -> (c + len cols < 2 ^ 63)%Z ->
    updateLoop n i cols qry (with_placeholderCount c qb)
    = Returns
        (qry ++ String.concat ","
                  (specAssignments cols
                     (specTokens (db qb) c (List.length cols))))
        (with_placeholderCount (c + len cols) qb).
Proof.
  induction cols as [|col cols IH]; intros n i qry c qb Hn Hlo Hhi.
  - cbn [updateLoop List.length specTokens specAssignments String.concat].
    rewrite append_nil_r, len_nil, Z.add_0_r. reflexivity.
  - rewrite len_cons in Hn, Hhi. pose proof (len_nonneg cols) as Hl.
    cbn [updateLoop]. unfold bind.
    rewrite addPlaceholder_spec by lia.
    replace (c + len (col :: cols))%Z with (c + 1 + len cols)%Z
      by (rewrite len_cons; lia).
    cbn [List.length]. rewrite specTokens_cons. cbn [specAssignments].
    destruct cols as [|col' cols].
    + replace (i <? n - 1)%Z with false
        by (symmetry; apply Z.ltb_ge; rewrite len_nil in Hn; lia).
      rewrite IH with (n := n) by (rewrite ?len_nil in *; lia).
      cbn [List.length specTokens specAssignments String.concat].
      rewrite append_nil_r. reflexivity.
    + replace (i <? n - 1)%Z with true
        by (symmetry; apply Z.ltb_lt; rewrite len_cons in Hn;
            pose proof (len_nonneg cols); lia).
      rewrite IH with (n := n) by lia.
      cbn [List.length]. rewrite (specTokens_cons _ (c + 1)).
      cbn [specAssignments]. rewrite concat_cons2.
      string_assoc. reflexivity.
Qed.

Lemma criteriaValues_acc (cs : list criterion) (acc : list value) :
  criteriaValues cs acc = (acc ++ criteriaValues cs [])%list.
Proof.
  revert acc. induction cs as [|c cs IH]; intros acc; cbn [criteriaValues].
  - now rewrite app_nil_r.
  - rewrite IH, (IH ([] ++ c_values c)%list). cbn [app].
    now rewrite app_assoc.
Qed.

Lemma len_app {A : Type} (l l' : list A) : len (l ++ l') = (len l + len l')%Z.
Proof. unfold len. rewrite length_app. lia. Qed.

Lemma criteriaValues_cons (c : criterion) (cs : list criterion) :
  len (criteriaValues (c :: cs) [])
  = (len (c_values c) + len (criteriaValues cs []))%Z.
Proof.
  cbn [criteriaValues app]. rewrite criteriaValues_acc. apply len_app.
Qed.

Lemma oneTokenPerValue_valid (c : criterion) :
  oneTokenPerValue c = true -> operatorIsValid (c_operator c) = true.
Proof.
  unfold oneTokenPerValue.
  destruct (operatorIsValid (c_operator c)); [reflexivity | discriminate].
Qed.

Lemma forallb_cons_true {A : Type} (f : A -> bool) (a : A) (l : list A) :
  forallb f (a :: l) = true -> f a = true /\ forallb f l = true.
Proof. cbn [forallb]. apply andb_true_iff. Qed.

(** A criterion with one token for each of its values is rendered as the
    specification words it. *)
Lemma criterionText_spec (c : criterion) (c0 : Z) (qb : Builder) :
  oneTokenPerValue c = true ->
  (- 2 ^ 63 <= c0)%Z -> (c0 + len (c_values c) < 2 ^ 63)%Z ->
  criterionText c (with_placeholderCount c0 qb)
  = Returns (specCriterion (db qb) c0 c)
      (with_placeholderCount (c0 + len (c_values c)) qb).
Proof.
  destruct c as [col op vs o]. unfold oneTokenPerValue, len.
  cbn [c_operator c_values c_column].
  intros H Hlo Hhi.
  apply andb_true_iff in H. destruct H as [H Hn].
  apply andb_true_iff in H. destruct H as [_ Hin].
  unfold criterionText, specCriterion. cbn [c_operator c_values c_column].
  destruct (op =? "IN"); [discriminate|].
  destruct (String.eqb_spec op "LIKE") as [->|NL].
  - cbn [String.eqb Ascii.eqb Bool.eqb orb] in *.
    apply Nat.eqb_eq in Hn. rewrite Hn in *.
    unfold bind, ret. rewrite addPlaceholder_spec by lia.
    string_assoc. reflexivity.
  - destruct (String.eqb_spec op "BETWEEN") as [->|NB].
    + apply Nat.eqb_eq in Hn. rewrite Hn in *.
      cbn [orb]. unfold bind, ret.
      rewrite addPlaceholder_spec by lia.
      rewrite addPlaceholder_spec by lia.
      replace (c0 + 1 + 1)%Z with (c0 + 2)%Z by lia.
      replace (c0 + Z.of_nat 2)%Z with (c0 + 2)%Z by lia.
      string_assoc. reflexivity.
    + apply Nat.eqb_eq in Hn. rewrite Hn in *.
      cbn [orb]. unfold bind, ret. rewrite addPlaceholder_spec by lia.
      string_assoc. reflexivity.
Qed.

Lemma laterCriteria_spec (cs : list criterion) :
  forall (qry : string) (c0 : Z) (qb : Builder),
    forallb oneTokenPerValue cs = true ->
    (- 2 ^ 63 <= c0)%Z -> (c0 + len (criteriaValues cs []) < 2 ^ 63)%Z ->
    laterCriteria cs qry (with_placeholderCount c0 qb)
    = Returns (qry ++ specLater (db qb) c0 cs, None)
        (with_placeholderCount (c0 + len (criteriaValues cs [])) qb).
Proof.
  induction cs as [|c cs IH]; intros qry c0 qb Hall Hlo Hhi.
  - cbn [laterCriteria specLater criteriaValues].
    rewrite append_nil_r, len_nil, Z.add_0_r. reflexivity.
  - destruct (forallb_cons_true _ _ _ Hall) as [Hc Hall'].
    rewrite criteriaValues_cons in *.
    pose proof (len_nonneg (c_values c)) as L1.
    pose proof (len_nonneg (criteriaValues cs [])) as L2.
    rewrite laterCriteria_cons.
    pose proof (oneTokenPerValue_valid c Hc) as V.
    rewrite V, criterionText_spec by (assumption || lia).
    rewrite IH by (assumption || lia).
    rewrite Z.add_assoc. cbn [specLater].
    destruct (c_or c); string_assoc; reflexivity.
Qed.

Lemma firstIsAnd_cons (c : criterion) (cs : list criterion) :
  firstIsAnd (c :: cs) = true -> c_or c = false.
Proof. cbn [firstIsAnd]. apply negb_true_iff. Qed.

Lemma whereByPosition_spec (cs : list criterion) (c0 : Z) (qb : Builder) :
  firstIsAnd cs = true ->
  forallb oneTokenPerValue cs = true ->
  (- 2 ^ 63 <= c0)%Z -> (c0 + len (criteriaValues cs []) < 2 ^ 63)%Z ->
  whereByPosition cs (with_placeholderCount c0 qb)
  = Returns (specWhere (db qb) c0 cs, None)
      (with_placeholderCount (c0 + len (criteriaValues cs [])) qb).
Proof.
  destruct cs as [|c cs]; intros Hand Hall Hlo Hhi.
  - cbn [whereByPosition specWhere criteriaValues].
    rewrite len_nil, Z.add_0_r. reflexivity.
  - destruct (forallb_cons_true _ _ _ Hall) as [Hc Hall'].
    apply firstIsAnd_cons in Hand.
    rewrite criteriaValues_cons in *.
    pose proof (len_nonneg (c_values c)) as L1.
    pose proof (len_nonneg (criteriaValues cs [])) as L2.
    rewrite whereByPosition_cons, Hand.
    pose proof (oneTokenPerValue_valid c Hc) as V.
    rewrite V, criterionText_spec by (assumption || lia).
    rewrite laterCriteria_spec by (assumption || lia).
    rewrite Z.add_assoc. cbn [specWhere].
    string_assoc. reflexivity.
Qed.

Lemma generateWhereClause_spec (c0 : Z) (qb : Builder) :
  firstIsAnd (criteria qb) = true ->
  forallb oneTokenPerValue (criteria qb) = true ->
  (- 2 ^ 63 <= c0)%Z -> (c0 + len (Criteria qb) < 2 ^ 63)%Z ->
  generateWhereClause (with_placeholderCount c0 qb)
  = Returns (specWhere (db qb) c0 (criteria qb), None)
      (with_placeholderCount (c0 + len (Criteria qb)) qb).
Proof.
  intros Hand Hall Hlo Hhi. rewrite generateWhereClause_by_position.
  change (criteria (with_placeholderCount c0 qb)) with (criteria qb).
  now apply whereByPosition_spec.
Qed.

Lemma generateInsertClause_spec (qb : Builder) :
  List.length (columns qb) = List.length (values qb) ->
  (- 2 ^ 63 <= placeholderCount qb)%Z ->
  (placeholderCount qb + len (values qb) < 2 ^ 63)%Z ->
  generateInsertClause qb
  = Returns (specInsert qb (placeholderCount qb), None)
      (with_placeholderCount (placeholderCount qb + len (values qb)) qb).
Proof.
  intros Hl Hlo Hhi. unfold generateInsertClause, specInsert.
  rewrite len_eqb, Hl, Nat.eqb_refl. cbn [negb]. unfold bind, ret.
  rewrite columnsLoop_concat by lia.
  match goal with
  | |- context [insertValuesLoop ?n ?i ?vs ?q qb] =>
      pose proof (insertValuesLoop_spec vs n i q (placeholderCount qb) qb) as E
  end.
  rewrite with_placeholderCount_id in E. rewrite E by lia.
  string_assoc. reflexivity.
Qed.

Lemma generateUpdateClause_spec (qb : Builder) :
  List.length (columns qb) = List.length (values qb) ->
  (- 2 ^ 63 <= placeholderCount qb)%Z ->
  (placeholderCount qb + len (values qb) < 2 ^ 63)%Z ->
  generateUpdateClause qb
  = Returns (specUpdate qb (placeholderCount qb), None)
      (with_placeholderCount (placeholderCount qb + len (values qb)) qb).
Proof.
  intros Hl Hlo Hhi. unfold generateUpdateClause, specUpdate.
  rewrite len_eqb, Hl, Nat.eqb_refl. cbn [negb]. unfold bind, ret.
  assert (E : len (values qb) = len (columns qb)) by (unfold len; now rewrite Hl).
  rewrite E in *.
  match goal with
  | |- context [updateLoop ?n ?i ?cols ?q qb] =>
      pose proof (updateLoop_spec cols n i q (placeholderCount qb) qb) as U
  end.
  rewrite with_placeholderCount_id in U. rewrite U by lia.
  rewrite <- Hl. string_assoc. reflexivity.
Qed.

Lemma generateWhereClause_spec_here (qb : Builder) :
  firstIsAnd (criteria qb) = true ->
  forallb oneTokenPerValue (criteria qb) = true ->
  (- 2 ^ 63 <= placeholderCount qb)%Z ->
  (placeholderCount qb + len (Criteria qb) < 2 ^ 63)%Z ->
  generateWhereClause qb
  = Returns (specWhere (db qb) (placeholderCount qb) (criteria qb), None)
      (with_placeholderCount (placeholderCount qb + len (Criteria qb)) qb).
Proof.
  intros Hand Hall Hlo Hhi.
  pose proof (generateWhereClause_spec (placeholderCount qb) qb
                Hand Hall Hlo Hhi) as E.
  now rewrite with_placeholderCount_id in E.
Qed.

Lemma generateOrderByClause_counter (n : Z) (qb : Builder) :
  generateOrderByClause (with_placeholderCount n qb) = generateOrderByClause qb.
Proof. reflexivity. Qed.

Lemma generateLimitClause_counter (n : Z) (qb : Builder) :
  generateLimitClause (with_placeholderCount n qb) = generateLimitClause qb.
Proof. reflexivity. Qed.

Lemma generateReturningClause_counter (n : Z) (qb : Builder) :
  generateReturningClause (with_placeholderCount n qb)
  = generateReturningClause qb.
Proof. reflexivity. Qed.

Lemma with_placeholderCount_twice (n m : Z) (qb : Builder) :
  with_placeholderCount n (with_placeholderCount m qb)
  = with_placeholderCount n qb.
Proof. reflexivity. Qed.

Lemma returning_without_error (qb : Builder) :
  snd (generateReturningClause qb) = None ->
  generateReturningClause qb = (fst (generateReturningClause qb), None).
Proof.
  destruct (generateReturningClause qb) as [r e]. cbn [fst snd].
  now intros ->.
Qed.

Lemma generateSelectClause_arity (qb : Builder) :
  List.length (columns qb) = List.length (values qb) ->
  generateSelectClause qb = ("SELECT " ++ String.concat "," (columns qb), None).
Proof.
  intros Hl. unfold generateSelectClause.
  rewrite len_eqb, Hl, Nat.eqb_refl. cbn [negb].
  now rewrite columnsLoop_concat by lia.
Qed.

(** C2, as the code has it.  Take a builder whose criteria, when the
    statement has a filter clause, start with an AND criterion and have each
    a whitelisted operator other than IN with the number of values it
    consumes (two for BETWEEN, one otherwise); whose columns and values have
    the same length when the statement checks it; whose RETURNING clause
    passes.  If [c] placeholders were allocated before the call and the
    counter does not overflow, generation succeeds, allocates one
    placeholder for each bound value, and the text is the one of the
    specification, in which the [n]-th bound value (mutation values, then
    filter values in criterion order) has the token number [c + n]: [$n],
    [:n] or [?].  On a new builder [c] is 0, and three values on Postgres
    have the tokens [$1], [$2], [$3]. *)
Theorem C2_tokens_follow_bound_values (qb : Builder) :
  (qtype qb <> insertQry ->
   firstIsAnd (criteria qb) = true
   /\ forallb oneTokenPerValue (criteria qb) = true) ->
  (qtype qb <> deleteQry ->
   List.length (columns qb) = List.length (values qb)) ->
  (qtype qb <> selectQry -> snd (generateReturningClause qb) = None) ->
  (- 2 ^ 63 <= placeholderCount qb)%Z ->
  (placeholderCount qb + len (boundValues qb) < 2 ^ 63)%Z ->
  GenerateQuery qb
  = Returns (specText qb (placeholderCount qb), None)
      (with_placeholderCount (placeholderCount qb + len (boundValues qb)) qb)
  /\ specTokens POSTGRES 0 3 = ["$1"; "$2"; "$3"]
  /\ specTokens ORACLE 0 3 = [":1"; ":2"; ":3"]
  /\ specTokens MYSQL 0 3 = ["?"; "?"; "?"].
Proof.
  intros Hcr Hl Hret Hlo Hhi.
  split; [|repeat split].
  unfold boundValues, specText in *. unfold_statements.
  destruct (qtype qb) eqn:K.
  - destruct Hcr as [Hand Hall]; [discriminate|].
    rewrite (generateSelectClause_arity qb) by (apply Hl; discriminate).
    rewrite generateWhereClause_spec_here by assumption.
    rewrite generateOrderByClause_counter, generateLimitClause_counter.
    string_assoc. reflexivity.
  - rewrite generateInsertClause_spec by (try apply Hl; try discriminate; lia).
    rewrite generateReturningClause_counter.
    rewrite (returning_without_error qb) by (apply Hret; discriminate).
    reflexivity.
  - destruct Hcr as [Hand Hall]; [discriminate|].
    rewrite len_app in Hhi.
    pose proof (len_nonneg (values qb)) as L1.
    pose proof (len_nonneg (Criteria qb)) as L2.
    rewrite generateUpdateClause_spec by (try apply Hl; try discriminate; lia).
    rewrite generateWhereClause_spec by (assumption || lia).
    rewrite generateReturningClause_counter.
    rewrite (returning_without_error qb) by (apply Hret; discriminate).
    rewrite len_app, Z.add_assoc.
    string_assoc. reflexivity.
  - destruct Hcr as [Hand Hall]; [discriminate|].
    rewrite generateWhereClause_spec_here by assumption.
    rewrite generateReturningClause_counter.
    rewrite (returning_without_error qb) by (apply Hret; discriminate).
    unfold generateDeleteClause.
    string_assoc. reflexivity.
Qed.

Lemma C2_witness :
  GenerateQuery update_between
  = Returns
      ("UPDATE t SET f1=$1,f2=$2,f3=$3 WHERE id BETWEEN $4 AND $5", None)
      (with_placeholderCount 5 update_between)
  /\ boundValues update_between
     = [VString "v1"; VInt 2; VInt 5; VInt 10; VInt 20].
Proof.
  split; [|reflexivity].
  refine (proj1 (C2_tokens_follow_bound_values update_between _ _ _ _ _)).
  - intros _. split; reflexivity.
  - intros _. reflexivity.
  - intros _. reflexivity.
  - vm_compute. discriminate.
  - vm_compute. reflexivity.
Defined.

(** C2 as stated fails.  A BETWEEN criterion takes two placeholders
    whatever the number of its values: with three values, the criterion that
    follows has the token [$3] while its value is the fourth bound value,
    and three placeholders are allocated for four bound values. *)
Lemma C2_counterexample :
  boundValues delete_between3 = [VInt 1; VInt 5; VInt 9; VInt 7]
  /\ GenerateQuery delete_between3
     = Returns ("DELETE FROM t WHERE a BETWEEN $1 AND $2 AND b=$3", None)
         (with_placeholderCount 3 delete_between3)
  /\ specText delete_between3 0
     = "DELETE FROM t WHERE a BETWEEN $1 AND $2 AND b=$4"
  /\ ~ (forall txt qb',
          GenerateQuery delete_between3 = Returns (txt, None) qb' ->
          txt = specText delete_between3 0
          /\ placeholderCount qb' = len (boundValues delete_between3)).
Proof.
  split; [reflexivity|]. split; [reflexivity|]. split; [reflexivity|].
  intros H.
  destruct (H _ _ eq_refl) as [E _]. vm_compute in E. discriminate E.
Qed.

(** The counter is not reset: a second call on the builder that the first
    call left goes on from the number reached. *)
Example second_call_goes_on_numbering :
  GenerateQuery (with_placeholderCount 5 update_between)
  = Returns
      ("UPDATE t SET f1=$6,f2=$7,f3=$8 WHERE id BETWEEN $9 AND $10", None)
      (with_placeholderCount 10 update_between).
Proof. vm_compute. reflexivity. Qed.

(* ================================================================= *)
(** ** Normalisation of the operator *)

(** The operators of the whitelist are ASCII and already in upper case:
    [Where] and [OrWhere] store them as they are passed, and store their
    lower-case spellings as the whitelisted operator. *)
Lemma ToUpper_whitelist :
  Forall (fun op => isASCII op = true /\ ToUpper op = op) whitelist
  /\ map ToUpper ["in"; "between"; "like"; "Between"]
     = ["IN"; "BETWEEN"; "LIKE"; "BETWEEN"].
Proof. split; [|reflexivity]. repeat constructor. Qed.

Example itoa_examples :
  itoa 0 = "0" /\ itoa 12 = "12" /\ itoa (-5) = "-5" /\ utoa 50 = "50".
Proof. repeat split. Qed.

(* ================================================================= *)
(** * Further properties of the package *)

(* ================================================================= *)
(** ** Joins and orders *)

Lemma joinLoop_concat (js : list joinTable) (qry : string) :
  joinLoop js qry = qry ++ concatAll (map joinText js).
Proof.
  revert qry. induction js as [|j js IH]; intros qry.
  - cbn. now rewrite append_nil_r.
  - cbn [joinLoop map concatAll fold_right]. rewrite IH.
    fold (concatAll (map joinText js)). unfold joinText.
    string_assoc. reflexivity.
Qed.

Lemma concatAll_app (l l' : list string) :
  concatAll (l ++ l')%list = concatAll l ++ concatAll l'.
Proof.
  induction l as [|s l IH]; [reflexivity|].
  cbn [app concatAll fold_right]. fold (concatAll (l ++ l')%list).
  fold (concatAll l). rewrite IH. now rewrite append_assoc.
Qed.

(** X1. The source clause is [" FROM "], the table, and the text of every
    join in the order in which the joins were added; adding a join with
    [Join] appends its text to the clause and changes nothing else of it. *)
Theorem X1_joins_are_emitted_in_order (qb : Builder) :
  generateFromAndJoinClause qb
  = " FROM " ++ table qb ++ concatAll (map joinText (joinTables qb))
  /\ forall joinType tbl column fkey,
       generateFromAndJoinClause (Join joinType tbl column fkey qb)
       = generateFromAndJoinClause qb
         ++ " " ++ joinType ++ " JOIN " ++ tbl ++ " ON " ++ column ++ "=" ++ fkey.
Proof.
  assert (G : forall q, generateFromAndJoinClause q
                        = " FROM " ++ table q
                          ++ concatAll (map joinText (joinTables q))).
  { intros q. unfold generateFromAndJoinClause.
    rewrite joinLoop_concat. string_assoc. reflexivity. }
  split; [apply G|].
  intros jt tbl column fkey. rewrite !G.
  unfold Join. cbn [joinTables table with_joinTables].
  rewrite map_app, concatAll_app. cbn [map concatAll fold_right].
  unfold joinText. cbn [j_joinType j_table j_column j_fkey].
  rewrite append_nil_r. string_assoc. reflexivity.
Qed.

Lemma orderByLoop_concat (os : list order) :
  forall (n ci : Z) (qry : string),
    (ci + len os = n)%Z ->
    orderByLoop n ci os qry = qry ++ String.concat "," (map orderText os).
Proof.
  induction os as [|o os IH]; intros n ci qry H.
  - cbn. now rewrite append_nil_r.
  - rewrite len_cons in H. cbn [orderByLoop map].
    assert (E : (match o_direction o with
                 | descending => (qry ++ o_column o) ++ " DESC"
                 | _ => (qry ++ o_column o) ++ " ASC"
                 end) = qry ++ orderText o).
    { unfold orderText. destruct (o_direction o); string_assoc; reflexivity. }
    rewrite E. destruct os as [|o' os].
    + rewrite len_nil in H.
      replace (ci <? n - 1)%Z with false by (symmetry; apply Z.ltb_ge; lia).
      reflexivity.
    + pose proof (len_nonneg os) as Hn. rewrite len_cons in H.
      replace (ci <? n - 1)%Z with true by (symmetry; apply Z.ltb_lt; lia).
      rewrite IH by (rewrite len_cons; lia).
      cbn [map]. rewrite concat_cons2. string_assoc. reflexivity.
Qed.

Lemma concat_snoc (x : string) (l : list string) (y : string) :
  String.concat "," ((x :: l) ++ [y])%list
  = String.concat "," (x :: l) ++ "," ++ y.
Proof.
  revert x. induction l as [|z l IH]; intros x; [reflexivity|].
  change ((x :: z :: l) ++ [y])%list with (x :: ((z :: l) ++ [y]))%list.
  cbn [app]. rewrite !concat_cons2.
  change (z :: (l ++ [y]))%list with ((z :: l) ++ [y])%list.
  rewrite IH. string_assoc. reflexivity.
Qed.

(** X2. The ORDER BY clause is empty without an order; otherwise it is
    [" ORDER BY "] and the orders, each a column followed by [" ASC"] or
    [" DESC"], separated by commas without a space and in the order in
    which they were added.  [OrderBy] and [OrderByDescending] on a builder
    that has an order append [","] and the new order to the clause. *)
Theorem X2_orders_are_comma_separated (qb : Builder) :
  generateOrderByClause qb
  = match orderBy qb with
    | [] => ""
    | os => " ORDER BY " ++ String.concat "," (map orderText os)
    end
  /\ (orderBy qb <> [] ->
      forall column,
        generateOrderByClause (OrderBy column qb)
        = generateOrderByClause qb ++ "," ++ column ++ " ASC"
        /\ generateOrderByClause (OrderByDescending column qb)
           = generateOrderByClause qb ++ "," ++ column ++ " DESC").
Proof.
  assert (G : forall q, generateOrderByClause q
                        = match orderBy q with
                          | [] => ""
                          | os => " ORDER BY "
                                  ++ String.concat "," (map orderText os)
                          end).
  { intros q. unfold generateOrderByClause.
    destruct (orderBy q) as [|o os] eqn:E; [reflexivity|].
    replace (len (o :: os) =? 0)%Z with false
      by (symmetry; apply Z.eqb_neq; rewrite len_cons;
          pose proof (len_nonneg os); lia).
    now rewrite orderByLoop_concat by lia. }
  split; [apply G|].
  intros Hne column. rewrite !G.
  unfold OrderBy, OrderByDescending. cbn [orderBy with_orderBy].
  destruct (orderBy qb) as [|o os]; [contradiction|].
  split.
  - cbn [app].
    change (o :: (os ++ [mkOrder column ascending]))%list
      with ((o :: os) ++ [mkOrder column ascending])%list.
    rewrite map_app. cbn [map]. rewrite concat_snoc.
    unfold orderText at 3. cbn [o_column o_direction].
    string_assoc. reflexivity.
  - cbn [app].
    change (o :: (os ++ [mkOrder column descending]))%list
      with ((o :: os) ++ [mkOrder column descending])%list.
    rewrite map_app. cbn [map]. rewrite concat_snoc.
    unfold orderText at 3. cbn [o_column o_direction].
    string_assoc. reflexivity.
Qed.

Lemma X2_witness :
  generateOrderByClause (OrderBy "table1.field3" joined_select)
  = generateOrderByClause joined_select ++ "," ++ "table1.field3" ++ " ASC"
  /\ generateOrderByClause (OrderByDescending "table1.field3" joined_select)
     = generateOrderByClause joined_select ++ "," ++ "table1.field3" ++ " DESC".
Proof.
  apply (proj2 (X2_orders_are_comma_separated joined_select)).
  discriminate.
Defined.

(* ================================================================= *)
(** ** A SELECT without a filter *)

(** X3. A SELECT with as many values as columns and no criterion generates
    without error, allocates no placeholder and leaves the builder as it
    was; its text is the projection, the source clause, the ORDER BY clause
    and the LIMIT clause, in this order.  The LIMIT clause is empty when the
    limit is 0, whatever the offset; otherwise it is [" LIMIT "] and the
    limit, followed by a comma and the offset only when the offset is not
    0. *)
Theorem X3_select_without_filter (qb : Builder) :
  qtype qb = selectQry ->
  List.length (columns qb) = List.length (values qb) ->
  criteria qb = [] ->
  GenerateQuery qb
  = Returns
      ("SELECT " ++ String.concat "," (columns qb)
       ++ generateFromAndJoinClause qb
       ++ generateOrderByClause qb
       ++ (if (limit qb =? 0)%N then ""
           else if (offset qb =? 0)%N then " LIMIT " ++ utoa (limit qb)
           else " LIMIT " ++ utoa (limit qb) ++ "," ++ utoa (offset qb)),
       None) qb.
Proof.
  intros K Hl Hc.
  assert (W : generateWhereClause qb = Returns ("", None) qb)
    by (unfold generateWhereClause; now rewrite Hc).
  assert (L : generateLimitClause qb
              = if (limit qb =? 0)%N then ""
                else if (offset qb =? 0)%N then " LIMIT " ++ utoa (limit qb)
                else " LIMIT " ++ utoa (limit qb) ++ "," ++ utoa (offset qb)).
  { unfold generateLimitClause.
    destruct (limit qb =? 0)%N; [reflexivity|].
    destruct (N.eqb_spec (offset qb) 0) as [E|E].
    - rewrite E. reflexivity.
    - replace (0 <? offset qb)%N with true
        by (symmetry; apply N.ltb_lt; lia).
      string_assoc. reflexivity. }
  unfold_statements.
  rewrite K, (generateSelectClause_arity qb Hl), W, L.
  rewrite append_nil_r. string_assoc. reflexivity.
Qed.

Lemma X3_witness :
  GenerateQuery
    (Limit 0 50
       (OrderBy "table1.field1"
          (Into [VPointer 1; VPointer 2]
             (Select ["field1"; "table2.field5"] (NewSelect "table1")))))
  = Returns
      ("SELECT " ++ String.concat "," ["table1.field1"; "table2.field5"]
       ++ " FROM table1" ++ " ORDER BY table1.field1 ASC" ++ "",
       None)
      (Limit 0 50
         (OrderBy "table1.field1"
            (Into [VPointer 1; VPointer 2]
               (Select ["field1"; "table2.field5"] (NewSelect "table1"))))).
Proof.
  apply (X3_select_without_filter
           (Limit 0 50
              (OrderBy "table1.field1"
                 (Into [VPointer 1; VPointer 2]
                    (Select ["field1"; "table2.field5"]
                       (NewSelect "table1")))))); reflexivity.
Defined.

(* ================================================================= *)
(** ** The accessors *)

Lemma criteriaValues_flat_map (cs : list criterion) (acc : list value) :
  criteriaValues cs acc = (acc ++ flat_map c_values cs)%list.
Proof.
  revert acc. induction cs as [|c cs IH]; intros acc; cbn [criteriaValues flat_map].
  - now rewrite app_nil_r.
  - rewrite IH. now rewrite app_assoc.
Qed.

(** X4. [Criteria] returns the values of all criteria, in the order of the
    criteria and, within a criterion, in the order in which they were
    passed; [Where] and [OrWhere] append their values to what [Criteria]
    returns. *)
Theorem X4_criteria_values_in_order (qb : Builder) :
  Criteria qb = flat_map c_values (criteria qb)
  /\ forall column op vs,
       Criteria (Where column op vs qb) = (Criteria qb ++ vs)%list
       /\ Criteria (OrWhere column op vs qb) = (Criteria qb ++ vs)%list.
Proof.
  assert (G : forall q, Criteria q = flat_map c_values (criteria q))
    by (intros q; unfold Criteria; now rewrite criteriaValues_flat_map).
  split; [apply G|].
  intros column op vs. rewrite !G.
  unfold Where, OrWhere. cbn [criteria with_criteria].
  rewrite !flat_map_app. cbn [flat_map c_values]. rewrite app_nil_r.
  split; reflexivity.
Qed.

Lemma keepsIntent_GenerateQuery : keepsIntent GenerateQuery.
Proof.
  assert (R : forall A (f : Builder -> A), keepsIntent (reads f))
    by (intros; apply keepsIntent_reads).
  intros qb a qb' H. unfold GenerateQuery in H.
  destruct (qtype qb); revert qb a qb' H;
    [change (keepsIntent generateSelectQry)
    |change (keepsIntent generateInsertQry)
    |change (keepsIntent generateUpdateQry)
    |change (keepsIntent generateDeleteQry)];
    unfold generateSelectQry, generateInsertQry, generateUpdateQry,
      generateDeleteQry;
    repeat (intent_step
            || apply keepsIntent_generateWhereClause
            || apply keepsIntent_generateInsertClause
            || apply keepsIntent_generateUpdateClause).
Qed.

(** X5. Generation changes nothing of the builder but the placeholder
    counter, whether it returns a text or an error: the dialect, the kind,
    the table, the joins, the columns, the values, the criteria, the orders
    and the limit are those of the builder it was called on, and the
    accessors return what they returned before. *)
Theorem X5_generation_only_moves_the_counter
        (qb qb' : Builder) (r : string * option error) :
  GenerateQuery qb = Returns r qb' ->
  qb' = with_placeholderCount (placeholderCount qb') qb
  /\ Values qb' = Values qb
  /\ Criteria qb' = Criteria qb
  /\ ReturningValues qb' = ReturningValues qb.
Proof.
  intros H. apply keepsIntent_GenerateQuery in H. unfold sameIntent in H.
  split; [exact H|]. rewrite H. repeat split; reflexivity.
Qed.

Lemma X5_witness :
  with_placeholderCount 4 update_with_bad_filter
  = with_placeholderCount
      (placeholderCount (with_placeholderCount 4 update_with_bad_filter))
      update_with_bad_filter
  /\ Values (with_placeholderCount 4 update_with_bad_filter)
     = Values update_with_bad_filter
  /\ Criteria (with_placeholderCount 4 update_with_bad_filter)
     = Criteria update_with_bad_filter
  /\ ReturningValues (with_placeholderCount 4 update_with_bad_filter)
     = ReturningValues update_with_bad_filter.
Proof.
  apply (X5_generation_only_moves_the_counter update_with_bad_filter
           (with_placeholderCount 4 update_with_bad_filter)
           ("", Some (NewInvalidOperatorError "!="))).
  reflexivity.
Defined.

(* ================================================================= *)
(** ** How far the counter moves *)

Lemma placeholdersOf_range (c : criterion) : (1 <= placeholdersOf c <= 2)%Z.
Proof. unfold placeholdersOf. destruct (_ || _); lia. Qed.

Lemma placeholdersOfAll_nonneg (cs : list criterion) :
  (0 <= placeholdersOfAll cs)%Z.
Proof.
  induction cs as [|c cs IH]; cbn [placeholdersOfAll]; [lia|].
  pose proof (placeholdersOf_range c). lia.
Qed.

Lemma addPlaceholder_counter (qb : Builder) :
  exists p,
    addPlaceholder qb
    = Returns p (with_placeholderCount (int_wrap (placeholderCount qb + 1)) qb).
Proof. unfold addPlaceholder. eauto. Qed.

Ltac step_placeholder :=
  match goal with
  | |- context [addPlaceholder ?q] =>
      let p := fresh "p" in
      let E := fresh "E" in
      destruct (addPlaceholder_counter q) as (p & E); rewrite E
  end.

(** The text of a criterion moves the counter by [placeholdersOf]. *)
Lemma criterionText_counter (c : criterion) (qb q1 : Builder) (t : string) :
  (- 2 ^ 63 <= placeholderCount qb)%Z ->
  (placeholderCount qb + placeholdersOf c < 2 ^ 63)%Z ->
  criterionText c qb = Returns t q1 ->
  q1 = with_placeholderCount (placeholderCount qb + placeholdersOf c) qb.
Proof.
  destruct c as [col op vs o]. unfold criterionText, placeholdersOf.
  cbn [c_operator c_column c_values].
  destruct (String.eqb_spec op "LIKE") as [->|NL];
    [|destruct (String.eqb_spec op "BETWEEN") as [->|NB];
      [|destruct (op =? "IN")]];
    cbn [String.eqb Ascii.eqb Bool.eqb orb andb];
    intros Hlo Hhi; unfold bind, ret, orPanic;
    repeat step_placeholder;
    try match goal with |- context [Repeat ?s ?k] => destruct (Repeat s k) end;
    intros H; try discriminate H; injection H as _ <-;
    cbn [placeholderCount with_placeholderCount];
    rewrite ?with_placeholderCount_twice;
    rewrite !int_wrap_small by (rewrite ?int_wrap_small by lia; lia);
    f_equal; lia.
Qed.

Lemma laterCriteria_counter (cs : list criterion) :
  forall (qry w : string) (qb qb' : Builder),
    (- 2 ^ 63 <= placeholderCount qb)%Z ->
    (placeholderCount qb + placeholdersOfAll cs < 2 ^ 63)%Z ->
    laterCriteria cs qry qb = Returns (w, None) qb' ->
    qb' = with_placeholderCount (placeholderCount qb + placeholdersOfAll cs) qb.
Proof.
  induction cs as [|c cs IH]; intros qry w qb qb' Hlo Hhi H.
  - injection H as _ <-. cbn [placeholdersOfAll].
    now rewrite Z.add_0_r, with_placeholderCount_id.
  - cbn [placeholdersOfAll] in Hhi |- *.
    pose proof (placeholdersOf_range c) as R.
    pose proof (placeholdersOfAll_nonneg cs) as N.
    rewrite laterCriteria_cons in H.
    destruct (operatorIsValid (c_operator c)); [|discriminate].
    destruct (criterionText c qb) as [t q1|m] eqn:E; [|discriminate].
    apply criterionText_counter in E; [|lia|lia]. subst q1.
    apply IH in H; cbn [placeholderCount with_placeholderCount]; try lia.
    rewrite H. cbn [placeholderCount with_placeholderCount].
    rewrite with_placeholderCount_twice. f_equal. lia.
Qed.

Lemma generateWhereClause_counter (qb qb' : Builder) (w : string) :
  (- 2 ^ 63 <= placeholderCount qb)%Z ->
  (placeholderCount qb + placeholdersOfAll (criteria qb) < 2 ^ 63)%Z ->
  generateWhereClause qb = Returns (w, None) qb' ->
  qb' = with_placeholderCount
          (placeholderCount qb + placeholdersOfAll (criteria qb)) qb.
Proof.
  intros Hlo Hhi H. rewrite generateWhereClause_by_position in H.
  destruct (criteria qb) as [|c cs].
  - injection H as _ <-. cbn [placeholdersOfAll].
    now rewrite Z.add_0_r, with_placeholderCount_id.
  - cbn [placeholdersOfAll] in Hhi |- *.
    pose proof (placeholdersOf_range c) as R.
    pose proof (placeholdersOfAll_nonneg cs) as N.
    rewrite whereByPosition_cons in H.
    destruct (c_or c); [discriminate|].
    destruct (operatorIsValid (c_operator c)); [|discriminate].
    destruct (criterionText c qb) as [t q1|m] eqn:E; [|discriminate].
    apply criterionText_counter in E; [|lia|lia]. subst q1.
    apply laterCriteria_counter in H;
      cbn [placeholderCount with_placeholderCount]; try lia.
    rewrite H. cbn [placeholderCount with_placeholderCount].
    rewrite with_placeholderCount_twice. f_equal. lia.
Qed.

(** The mutation clauses fail on an arity mismatch, and only then. *)
Lemma generateInsertClause_mismatch (qb : Builder) :
  List.length (columns qb) <> List.length (values qb) ->
  generateInsertClause qb
  = Returns ("", Some (NewBadColumnsValuesComboError
                         (len (columns qb)) (len (values qb)))) qb.
Proof.
  intros H. unfold generateInsertClause.
  rewrite len_eqb. apply Nat.eqb_neq in H. now rewrite H.
Qed.

Lemma generateUpdateClause_mismatch (qb : Builder) :
  List.length (columns qb) <> List.length (values qb) ->
  generateUpdateClause qb
  = Returns ("", Some (NewBadColumnsValuesComboError
                         (len (columns qb)) (len (values qb)))) qb.
Proof.
  intros H. unfold generateUpdateClause.
  rewrite len_eqb. apply Nat.eqb_neq in H. now rewrite H.
Qed.

Lemma generateSelectClause_mismatch (qb : Builder) :
  List.length (columns qb) <> List.length (values qb) ->
  generateSelectClause qb
  = ("", Some (NewBadColumnsValuesComboError
                 (len (columns qb)) (len (values qb)))).
Proof.
  intros H. unfold generateSelectClause.
  rewrite len_eqb. apply Nat.eqb_neq in H. now rewrite H.
Qed.

(** What a statement that returns without error has gone through. *)
Lemma success_inversion (qb qb' : Builder) (txt : string) :
  GenerateQuery qb = Returns (txt, None) qb' ->
  match qtype qb with
  | selectQry =>
      List.length (columns qb) = List.length (values qb)
      /\ exists w, generateWhereClause qb = Returns (w, None) qb'
  | insertQry =>
      List.length (columns qb) = List.length (values qb)
      /\ (exists t, generateInsertClause qb = Returns (t, None) qb')
      /\ snd (generateReturningClause qb) = None
  | updateQry =>
      List.length (columns qb) = List.length (values qb)
      /\ (exists t w qb1,
             generateUpdateClause qb = Returns (t, None) qb1
             /\ generateWhereClause qb1 = Returns (w, None) qb')
      /\ snd (generateReturningClause qb) = None
  | deleteQry =>
      (exists w, generateWhereClause qb = Returns (w, None) qb')
      /\ snd (generateReturningClause qb) = None
  end.
Proof.
  intros H. unfold_statements.
  destruct (qtype qb).
  - destruct (Nat.eq_dec (List.length (columns qb)) (List.length (values qb)))
      as [Hl|Hl].
    + split; [exact Hl|].
      rewrite (generateSelectClause_arity qb Hl) in H.
      destruct (generateWhereClause qb) as [[w [e|]] q1|m];
        try discriminate.
      injection H as _ <-. eauto.
    + rewrite (generateSelectClause_mismatch qb Hl) in H. discriminate.
  - destruct (Nat.eq_dec (List.length (columns qb)) (List.length (values qb)))
      as [Hl|Hl].
    + split; [exact Hl|].
      destruct (generateInsertClause qb) as [[t [e|]] q1|m] eqn:E;
        try discriminate.
      rewrite (generateReturningClause_sameIntent qb q1) in H
        by (eapply keepsIntent_generateInsertClause, E).
      destruct (generateReturningClause qb) as [r [e|]];
        try discriminate.
      injection H as _ <-. eauto.
    + rewrite (generateInsertClause_mismatch qb Hl) in H. discriminate.
  - destruct (Nat.eq_dec (List.length (columns qb)) (List.length (values qb)))
      as [Hl|Hl].
    + split; [exact Hl|].
      destruct (generateUpdateClause qb) as [[t [e|]] q1|m] eqn:E;
        try discriminate.
      destruct (generateWhereClause q1) as [[w [e|]] q2|m] eqn:W;
        try discriminate.
      rewrite (generateReturningClause_sameIntent qb q2) in H
        by (eapply sameIntent_trans;
            [eapply keepsIntent_generateUpdateClause, E
            |eapply keepsIntent_generateWhereClause, W]).
      destruct (generateReturningClause qb) as [r [e|]];
        try discriminate.
      injection H as _ <-. split; [|reflexivity]. eauto 6.
    + rewrite (generateUpdateClause_mismatch qb Hl) in H. discriminate.
  - destruct (generateWhereClause qb) as [[w [e|]] q1|m] eqn:W;
      try discriminate.
    rewrite (generateReturningClause_sameIntent qb q1) in H
      by (eapply keepsIntent_generateWhereClause, W).
    destruct (generateReturningClause qb) as [r [e|]];
      try discriminate.
    injection H as _ <-. eauto.
Qed.

(** X6. A generation that returns without error calls the allocator a
    number of times that the builder fixes: once for each value of an
    INSERT, once for each column of an UPDATE, and for each criterion of a
    SELECT, UPDATE or DELETE twice when its operator is BETWEEN or IN and
    once otherwise, whatever the number of values of the criterion.  Away
    from the overflow of the counter, the counter has moved by exactly this
    number. *)
Theorem X6_counter_moves_by_allocated (qb qb' : Builder) (txt : string) :
  GenerateQuery qb = Returns (txt, None) qb' ->
  (- 2 ^ 63 <= placeholderCount qb)%Z ->
  (placeholderCount qb + allocated qb < 2 ^ 63)%Z ->
  placeholderCount qb' = (placeholderCount qb + allocated qb)%Z.
Proof.
  intros H Hlo Hhi. apply success_inversion in H.
  unfold allocated in *.
  destruct (qtype qb).
  - destruct H as (_ & w & W).
    apply generateWhereClause_counter in W; [|assumption|assumption].
    rewrite W. reflexivity.
  - destruct H as (Hl & (t & I) & _).
    rewrite generateInsertClause_spec in I by assumption.
    injection I as _ <-. reflexivity.
  - destruct H as (Hl & (t & w & q1 & U & W) & _).
    assert (E : len (values qb) = len (columns qb))
      by (unfold len; now rewrite Hl).
    pose proof (len_nonneg (columns qb)) as L.
    pose proof (placeholdersOfAll_nonneg (criteria qb)) as N.
    rewrite generateUpdateClause_spec in U by (assumption || lia).
    injection U as _ <-.
    apply generateWhereClause_counter in W;
      cbn [placeholderCount with_placeholderCount criteria] in *; try lia.
    rewrite W. cbn [placeholderCount with_placeholderCount]. lia.
  - destruct H as ((w & W) & _).
    apply generateWhereClause_counter in W; [|assumption|assumption].
    rewrite W. reflexivity.
Qed.

Lemma X6_witness :
  placeholderCount (with_placeholderCount 3 delete_between3)
  = (placeholderCount delete_between3 + allocated delete_between3)%Z.
Proof.
  apply (X6_counter_moves_by_allocated delete_between3
           (with_placeholderCount 3 delete_between3)
           "DELETE FROM t WHERE a BETWEEN $1 AND $2 AND b=$3").
  - reflexivity.
  - vm_compute. discriminate.
  - vm_compute. reflexivity.
Defined.

(* ================================================================= *)
(** ** Builders that generation cannot tell apart *)

Section Respect.

Variable R : Builder -> Builder -> Prop.
Hypothesis R_addPlaceholder : respects R addPlaceholder.

Lemma respects_ret {A : Type} (a : A) : respects R (ret a).
Proof. intros q1 q2 H. cbn. auto. Qed.

Lemma respects_bind {A B : Type} (m : M A) (k : A -> M B) :
  respects R m -> (forall a, respects R (k a)) -> respects R (bind m k).
Proof.
  intros Hm Hk q1 q2 H. unfold bind. specialize (Hm q1 q2 H).
  destruct (m q1) as [a q1'|m1], (m q2) as [b q2'|m2]; cbn in Hm;
    try contradiction.
  - destruct Hm as [<- H']. now apply Hk.
  - exact Hm.
Qed.

Lemma respects_orPanic {A : Type} (r : string + A) : respects R (orPanic r).
Proof. intros q1 q2 H. unfold orPanic. destruct r; cbn; auto. Qed.

Lemma respects_reads {A : Type} (f : Builder -> A) :
  (forall q1 q2, R q1 q2 -> f q1 = f q2) -> respects R (reads f).
Proof. intros Hf q1 q2 H. cbn. auto. Qed.

Ltac respects_step :=
  match goal with
  | |- respects R (bind _ _) => apply respects_bind; [|intro]
  | |- respects R (if ?b then _ else _) => destruct b
  | |- respects R (match ?x with (_, _) => _ end) => destruct x
  | |- respects R (match ?x with Some _ => _ | None => _ end) => destruct x
  | |- respects R (ret _) => apply respects_ret
  | |- respects R (orPanic _) => apply respects_orPanic
  | |- respects R addPlaceholder => exact R_addPlaceholder
  end.

Lemma respects_criterionText (c : criterion) : respects R (criterionText c).
Proof. unfold criterionText. repeat respects_step. Qed.

Lemma respects_laterCriteria (cs : list criterion) (qry : string) :
  respects R (laterCriteria cs qry).
Proof.
  revert qry. induction cs as [|c cs IH]; intros qry; cbn [laterCriteria].
  - apply respects_ret.
  - repeat (respects_step || apply respects_criterionText || apply IH).
Qed.

Lemma respects_whereByPosition (cs : list criterion) :
  respects R (whereByPosition cs).
Proof.
  destruct cs as [|c cs]; cbn [whereByPosition].
  - apply respects_ret.
  - repeat (respects_step || apply respects_criterionText
            || apply respects_laterCriteria).
Qed.

Lemma respects_generateWhereClause :
  (forall q1 q2, R q1 q2 -> criteria q1 = criteria q2) ->
  respects R generateWhereClause.
Proof.
  intros Hc q1 q2 H. rewrite !generateWhereClause_by_position.
  rewrite (Hc q1 q2 H). now apply respects_whereByPosition.
Qed.

Lemma respects_insertValuesLoop (n i : Z) (vs : list value) (qry : string) :
  respects R (insertValuesLoop n i vs qry).
Proof.
  revert i qry. induction vs as [|v vs IH]; intros i qry;
    cbn [insertValuesLoop].
  - apply respects_ret.
  - repeat (respects_step || apply IH).
Qed.

Lemma respects_updateLoop (n i : Z) (cols : list string) (qry : string) :
  respects R (updateLoop n i cols qry).
Proof.
  revert i qry. induction cols as [|c cols IH]; intros i qry;
    cbn [updateLoop].
  - apply respects_ret.
  - repeat (respects_step || apply IH).
Qed.

Lemma respects_generateInsertClause :
  (forall q1 q2, R q1 q2 ->
     table q1 = table q2 /\ columns q1 = columns q2 /\ values q1 = values q2) ->
  respects R generateInsertClause.
Proof.
  intros Hf q1 q2 H. destruct (Hf q1 q2 H) as (Ht & Hc & Hv).
  unfold generateInsertClause. rewrite Ht, Hc, Hv.
  destruct (negb _).
  - cbn. auto.
  - eapply respects_bind; [apply respects_insertValuesLoop | | exact H].
    intro. apply respects_ret.
Qed.

Lemma respects_generateUpdateClause :
  (forall q1 q2, R q1 q2 ->
     table q1 = table q2 /\ columns q1 = columns q2 /\ values q1 = values q2) ->
  respects R generateUpdateClause.
Proof.
  intros Hf q1 q2 H. destruct (Hf q1 q2 H) as (Ht & Hc & Hv).
  unfold generateUpdateClause. rewrite Ht, Hc, Hv.
  destruct (negb _).
  - cbn. auto.
  - eapply respects_bind; [apply respects_updateLoop | | exact H].
    intro. apply respects_ret.
Qed.

Lemma respects_generateSelectQry :
  (forall q1 q2, R q1 q2 ->
     generateSelectClause q1 = generateSelectClause q2
     /\ generateFromAndJoinClause q1 = generateFromAndJoinClause q2
     /\ criteria q1 = criteria q2
     /\ generateOrderByClause q1 = generateOrderByClause q2
     /\ generateLimitClause q1 = generateLimitClause q2) ->
  respects R generateSelectQry.
Proof.
  intros Hf. unfold generateSelectQry.
  repeat (respects_step
          || (apply respects_reads; intros q1 q2 H; apply (Hf q1 q2 H))
          || (apply respects_generateWhereClause;
              intros q1 q2 H; apply (Hf q1 q2 H))).
Qed.

Lemma respects_generateInsertQry :
  (forall q1 q2, R q1 q2 ->
     table q1 = table q2 /\ columns q1 = columns q2 /\ values q1 = values q2) ->
  (forall q1 q2, R q1 q2 ->
     generateReturningClause q1 = generateReturningClause q2) ->
  respects R generateInsertQry.
Proof.
  intros Hf Hr. unfold generateInsertQry.
  repeat (respects_step
          || (apply respects_reads; exact Hr)
          || (apply respects_generateInsertClause; exact Hf)).
Qed.

Lemma respects_generateUpdateQry :
  (forall q1 q2, R q1 q2 ->
     table q1 = table q2 /\ columns q1 = columns q2 /\ values q1 = values q2) ->
  (forall q1 q2, R q1 q2 -> criteria q1 = criteria q2) ->
  (forall q1 q2, R q1 q2 ->
     generateReturningClause q1 = generateReturningClause q2) ->
  respects R generateUpdateQry.
Proof.
  intros Hf Hc Hr. unfold generateUpdateQry.
  repeat (respects_step
          || (apply respects_reads; exact Hr)
          || (apply respects_generateWhereClause; exact Hc)
          || (apply respects_generateUpdateClause; exact Hf)).
Qed.

Lemma respects_generateDeleteQry :
  (forall q1 q2, R q1 q2 ->
     generateFromAndJoinClause q1 = generateFromAndJoinClause q2) ->
  (forall q1 q2, R q1 q2 -> criteria q1 = criteria q2) ->
  (forall q1 q2, R q1 q2 ->
     generateReturningClause q1 = generateReturningClause q2) ->
  respects R generateDeleteQry.
Proof.
  intros Hf Hc Hr. unfold generateDeleteQry.
  repeat (respects_step
          || (apply respects_reads; exact Hr)
          || (apply respects_reads; exact Hf)
          || (apply respects_reads; intros; reflexivity)
          || (apply respects_generateWhereClause; exact Hc)).
Qed.

End Respect.

Lemma agree_result {A : Type} (R : Builder -> Builder -> Prop)
      (o1 o2 : outcome A) :
  agree R o1 o2 -> result o1 = result o2.
Proof.
  destruct o1 as [a q1|m1], o2 as [b q2|m2]; cbn; try contradiction.
  - now intros [-> _].
  - now intros ->.
Qed.

(* ================================================================= *)
(** ** Dialects without numbers *)

Lemma sameButCounter_addPlaceholder : respects sameButCounter addPlaceholder.
Proof.
  intros q1 q2 (Hp & Ho & E). unfold addPlaceholder, agree.
  assert (D : db q2 = db q1).
  { change (db (with_placeholderCount 0 q2) = db (with_placeholderCount 0 q1)).
    now rewrite E. }
  cbn [db with_placeholderCount]. rewrite D.
  apply Z.eqb_neq in Hp, Ho. rewrite Hp, Ho.
  split; [reflexivity|].
  repeat split; cbn [db with_placeholderCount];
    try (apply Z.eqb_neq; assumption).
  rewrite !with_placeholderCount_twice. exact E.
Qed.

Lemma sameButCounter_reads {A : Type} (f : Builder -> A) :
  (forall q, f q = f (with_placeholderCount 0 q)) ->
  forall q1 q2, sameButCounter q1 q2 -> f q1 = f q2.
Proof.
  intros Hf q1 q2 (_ & _ & E). now rewrite (Hf q1), (Hf q2), E.
Qed.

Lemma sameButCounter_GenerateQuery : respects sameButCounter GenerateQuery.
Proof.
  intros q1 q2 H. unfold GenerateQuery.
  rewrite (sameButCounter_reads qtype (fun _ => eq_refl) q1 q2 H).
  destruct (qtype q2).
  - apply respects_generateSelectQry;
      [exact sameButCounter_addPlaceholder | | exact H].
    intros p1 p2 P.
    repeat split; apply (fun f Hf => sameButCounter_reads f Hf p1 p2 P);
      reflexivity.
  - apply respects_generateInsertQry;
      [exact sameButCounter_addPlaceholder | | | exact H];
      intros p1 p2 P;
      repeat split; apply (fun f Hf => sameButCounter_reads f Hf p1 p2 P);
      reflexivity.
  - apply respects_generateUpdateQry;
      [exact sameButCounter_addPlaceholder | | | | exact H];
      intros p1 p2 P;
      repeat split; apply (fun f Hf => sameButCounter_reads f Hf p1 p2 P);
      reflexivity.
  - apply respects_generateDeleteQry;
      [exact sameButCounter_addPlaceholder | | | | exact H];
      intros p1 p2 P;
      repeat split; apply (fun f Hf => sameButCounter_reads f Hf p1 p2 P);
      reflexivity.
Qed.

(** X7. On a dialect other than Postgres and Oracle (MySQL, which is the
    default, SQLite, or any other number) what generation returns does not
    depend on the placeholder counter: on a builder whose counter is at any
    value it returns the same text and error, or panics the same.  In
    particular a second call on the builder that a first call left returns
    what the first call returned. *)
Theorem X7_unnumbered_dialects_repeat (qb : Builder) :
  db qb <> POSTGRES -> db qb <> ORACLE ->
  (forall n, result (GenerateQuery (with_placeholderCount n qb))
             = result (GenerateQuery qb))
  /\ (forall r qb', GenerateQuery qb = Returns r qb' ->
                    result (GenerateQuery qb') = inr r).
Proof.
  intros Hp Ho.
  assert (G : forall n, result (GenerateQuery (with_placeholderCount n qb))
                        = result (GenerateQuery qb)).
  { intros n. apply (agree_result sameButCounter).
    apply sameButCounter_GenerateQuery.
    repeat split; cbn [db with_placeholderCount]; assumption || reflexivity. }
  split; [exact G|].
  intros r qb' H.
  pose proof (keepsIntent_GenerateQuery _ _ _ H) as S. rewrite S.
  rewrite G, H. reflexivity.
Qed.

Lemma X7_witness :
  (forall n, result (GenerateQuery (with_placeholderCount n joined_select))
             = result (GenerateQuery joined_select))
  /\ (forall r qb', GenerateQuery joined_select = Returns r qb' ->
                    result (GenerateQuery qb') = inr r).
Proof.
  apply (X7_unnumbered_dialects_repeat joined_select); discriminate.
Defined.

(* ================================================================= *)
(** ** The fields a statement never reads *)

Lemma statementView_qtype (qb : Builder) : qtype (statementView qb) = qtype qb.
Proof. unfold statementView. destruct (qtype qb) eqn:K; exact K. Qed.

Lemma sameStatement_qtype (q1 q2 : Builder) :
  sameStatement q1 q2 -> qtype q2 = qtype q1.
Proof.
  intros H. rewrite <- (statementView_qtype q1), <- (statementView_qtype q2).
  now rewrite H.
Qed.

(** The view of the statement, once the kind is known. *)
Lemma sameStatementOf_view (k : queryType) (q1 q2 : Builder) :
  sameStatementOf k q1 q2 ->
  match k with
  | selectQry =>
      with_returningColumns [] (with_returnValues [] q1)
      = with_returningColumns [] (with_returnValues [] q2)
  | insertQry =>
      with_joinTables [] (with_criteria [] (with_orderBy [] (with_limit 0 0 q1)))
      = with_joinTables [] (with_criteria [] (with_orderBy [] (with_limit 0 0 q2)))
  | updateQry =>
      with_joinTables [] (with_orderBy [] (with_limit 0 0 q1))
      = with_joinTables [] (with_orderBy [] (with_limit 0 0 q2))
  | deleteQry =>
      with_columns [] (with_values [] (with_orderBy [] (with_limit 0 0 q1)))
      = with_columns [] (with_values [] (with_orderBy [] (with_limit 0 0 q2)))
  end.
Proof.
  intros [K V]. pose proof (sameStatement_qtype _ _ V) as K2.
  unfold sameStatement, statementView in V. rewrite K2, K in V.
  destruct k; exact V.
Qed.

Lemma sameStatementOf_addPlaceholder (k : queryType) :
  respects (sameStatementOf k) addPlaceholder.
Proof.
  intros q1 q2 H. pose proof (sameStatementOf_view k q1 q2 H) as V.
  destruct H as [K S].
  assert (D : db q1 = db q2 /\ placeholderCount q1 = placeholderCount q2).
  { destruct k;
      (split; [apply (f_equal db) in V | apply (f_equal placeholderCount) in V];
       exact V). }
  destruct D as [D C].
  unfold addPlaceholder, agree.
  cbn [db placeholderCount with_placeholderCount]. rewrite D, C.
  split; [reflexivity|]. split; [exact K|].
  unfold sameStatement, statementView.
  cbn [qtype with_placeholderCount].
  rewrite (sameStatement_qtype _ _ S), K.
  destruct k;
    apply (f_equal (with_placeholderCount
                      (int_wrap (placeholderCount q2 + 1)))) in V;
    exact V.
Qed.

Ltac from_view V :=
  repeat split;
  match goal with
  | |- ?f ?q1 = ?f ?q2 => apply (f_equal f) in V; exact V
  end.

(** X8. A statement does not read the fields that have no clause in it.
    Two builders of the same kind that differ only in such fields generate
    the same text and error (or the same panic): the returning columns and
    return values of a SELECT; the joins, criteria, orders, limit and
    offset of an INSERT; the joins, orders, limit and offset of an UPDATE;
    the columns, values, orders, limit and offset of a DELETE.  So a filter
    added to an INSERT is never checked, and a DELETE never fails on the
    arity of columns and values. *)
Theorem X8_unread_fields_do_not_matter (q1 q2 : Builder) :
  statementView q1 = statementView q2 ->
  result (GenerateQuery q1) = result (GenerateQuery q2).
Proof.
  intros S. apply (agree_result (sameStatementOf (qtype q1))).
  unfold GenerateQuery. rewrite (sameStatement_qtype q1 q2 S).
  assert (H : sameStatementOf (qtype q1) q1 q2) by (split; [reflexivity|exact S]).
  destruct (qtype q1) eqn:K.
  - apply respects_generateSelectQry;
      [exact (sameStatementOf_addPlaceholder selectQry) | | exact H].
    intros p1 p2 P. pose proof (sameStatementOf_view _ _ _ P) as V.
    cbv beta iota in V. from_view V.
  - apply respects_generateInsertQry;
      [exact (sameStatementOf_addPlaceholder insertQry) | | | exact H];
      intros p1 p2 P; pose proof (sameStatementOf_view _ _ _ P) as V;
      cbv beta iota in V; from_view V.
  - apply respects_generateUpdateQry;
      [exact (sameStatementOf_addPlaceholder updateQry) | | | | exact H];
      intros p1 p2 P; pose proof (sameStatementOf_view _ _ _ P) as V;
      cbv beta iota in V; from_view V.
  - apply respects_generateDeleteQry;
      [exact (sameStatementOf_addPlaceholder deleteQry) | | | | exact H];
      intros p1 p2 P; pose proof (sameStatementOf_view _ _ _ P) as V;
      cbv beta iota in V; from_view V.
Qed.

Lemma X8_witness :
  result (GenerateQuery insert_with_filter)
  = result (GenerateQuery
              (To [VString "value1"; VInt 2]
                 (Set_ ["field1"; "field2"] (NewInsert "table1")))).
Proof.
  apply (X8_unread_fields_do_not_matter insert_with_filter
           (To [VString "value1"; VInt 2]
              (Set_ ["field1"; "field2"] (NewInsert "table1")))).
  reflexivity.
Defined.

(* ================================================================= *)
(** ** Panics *)

Lemma criterionText_returns (c : criterion) (qb : Builder) :
  c_operator c <> "IN" -> exists t q, criterionText c qb = Returns t q.
Proof.
  intros H. unfold criterionText.
  destruct (String.eqb_spec (c_operator c) "IN") as [E|_]; [contradiction|].
  destruct (c_operator c =? "LIKE"), (c_operator c =? "BETWEEN");
    unfold bind, ret; repeat step_placeholder; eauto.
Qed.

Lemma laterCriteria_returns (cs : list criterion) :
  Forall (fun c => c_operator c <> "IN") cs ->
  forall qry qb, exists r q, laterCriteria cs qry qb = Returns r q.
Proof.
  induction 1 as [|c cs Hc _ IH]; intros qry qb.
  - cbn. eauto.
  - rewrite laterCriteria_cons.
    destruct (operatorIsValid (c_operator c)); [|eauto].
    destruct (criterionText_returns c qb Hc) as (t & q & ->). apply IH.
Qed.

Lemma generateWhereClause_returns (qb : Builder) :
  Forall (fun c => c_operator c <> "IN") (criteria qb) ->
  exists r q, generateWhereClause qb = Returns r q.
Proof.
  intros H. rewrite generateWhereClause_by_position.
  destruct H as [|c cs Hc Hcs].
  - cbn. eauto.
  - rewrite whereByPosition_cons.
    destruct (c_or c); [eauto|].
    destruct (operatorIsValid (c_operator c)); [|eauto].
    destruct (criterionText_returns c qb Hc) as (t & q & ->).
    now apply laterCriteria_returns.
Qed.

Lemma insertValuesLoop_returns (vs : list value) :
  forall n i qry qb, exists t q, insertValuesLoop n i vs qry qb = Returns t q.
Proof.
  induction vs as [|v vs IH]; intros n i qry qb; cbn [insertValuesLoop].
  - cbn. eauto.
  - unfold bind. step_placeholder. apply IH.
Qed.

Lemma updateLoop_returns (cols : list string) :
  forall n i qry qb, exists t q, updateLoop n i cols qry qb = Returns t q.
Proof.
  induction cols as [|c cols IH]; intros n i qry qb; cbn [updateLoop].
  - cbn. eauto.
  - unfold bind. step_placeholder. apply IH.
Qed.

Lemma generateInsertClause_returns (qb : Builder) :
  exists t e q,
    generateInsertClause qb = Returns (t, e) q
    /\ (e <> None ->
        List.length (columns qb) <> List.length (values qb)
        /\ e = Some (NewBadColumnsValuesComboError
                       (len (columns qb)) (len (values qb)))).
Proof.
  unfold generateInsertClause. rewrite len_eqb.
  destruct (Nat.eqb_spec (List.length (columns qb)) (List.length (values qb)))
    as [E|E]; cbn [negb].
  - unfold bind, ret.
    match goal with
    | |- context [insertValuesLoop ?n ?i ?vs ?q qb] =>
        destruct (insertValuesLoop_returns vs n i q qb) as (t & q1 & ->)
    end.
    do 3 eexists. split; [reflexivity|]. intros H. now contradiction H.
  - do 3 eexists. split; [reflexivity|]. intros _. split; [exact E|reflexivity].
Qed.

Lemma generateUpdateClause_returns (qb : Builder) :
  exists t e q,
    generateUpdateClause qb = Returns (t, e) q
    /\ (e <> None ->
        List.length (columns qb) <> List.length (values qb)
        /\ e = Some (NewBadColumnsValuesComboError
                       (len (columns qb)) (len (values qb)))).
Proof.
  unfold generateUpdateClause. rewrite len_eqb.
  destruct (Nat.eqb_spec (List.length (columns qb)) (List.length (values qb)))
    as [E|E]; cbn [negb].
  - unfold bind, ret.
    match goal with
    | |- context [updateLoop ?n ?i ?cs ?q qb] =>
        destruct (updateLoop_returns cs n i q qb) as (t & q1 & ->)
    end.
    do 3 eexists. split; [reflexivity|]. intros H. now contradiction H.
  - do 3 eexists. split; [reflexivity|]. intros _. split; [exact E|reflexivity].
Qed.

(** X9. Generation panics only in the branch of the operator IN.  An INSERT
    never panics, and a SELECT, UPDATE or DELETE none of whose criteria has
    the (stored) operator IN never panics: the call returns a text or an
    error. *)
Theorem X9_no_panic_without_in (qb : Builder) :
  qtype qb = insertQry
  \/ Forall (fun c => c_operator c <> "IN") (criteria qb) ->
  exists r qb', GenerateQuery qb = Returns r qb'.
Proof.
  intros H. unfold_statements.
  destruct (qtype qb) eqn:K.
  - destruct H as [H|H]; [discriminate|].
    destruct (generateSelectClause qb) as [t [e|]]; [eauto|].
    destruct (generateWhereClause_returns qb H) as ([w [e|]] & q & ->); eauto.
  - destruct (generateInsertClause_returns qb) as (t & e & q & -> & _).
    destruct e as [e|]; [eauto|].
    destruct (generateReturningClause q) as [r [e|]]; eauto.
  - destruct H as [H|H]; [discriminate|].
    destruct (generateUpdateClause_returns qb) as (t & e & q & U & _).
    rewrite U. destruct e as [e|]; [eauto|].
    assert (S : criteria q = criteria qb).
    { apply keepsIntent_generateUpdateClause in U. rewrite U. reflexivity. }
    rewrite <- S in H.
    destruct (generateWhereClause_returns q H) as ([w [e|]] & q' & ->);
      [eauto|].
    destruct (generateReturningClause q') as [r [e|]]; eauto.
  - destruct H as [H|H]; [discriminate|].
    destruct (generateWhereClause_returns qb H) as ([w [e|]] & q & ->);
      [eauto|].
    destruct (generateReturningClause q) as [r [e|]]; eauto.
Qed.

Lemma X9_witness :
  exists r qb', GenerateQuery joined_select = Returns r qb'.
Proof.
  apply (X9_no_panic_without_in joined_select). right.
  repeat constructor. discriminate.
Defined.

(* ================================================================= *)
(** ** Every error has its cause *)

Lemma invalid_not_whitelisted (op : string) :
  operatorIsValid op = false -> ~ In op whitelist.
Proof.
  intros V H. apply operatorIsValid_whitelist in H. congruence.
Qed.

Lemma laterCriteria_error (cs : list criterion) :
  forall qry w e qb q,
    laterCriteria cs qry qb = Returns (w, Some e) q ->
    exists c, In c cs
              /\ e = NewInvalidOperatorError (c_operator c)
              /\ ~ In (c_operator c) whitelist.
Proof.
  induction cs as [|c cs IH]; intros qry w e qb q H.
  - discriminate.
  - rewrite laterCriteria_cons in H.
    destruct (operatorIsValid (c_operator c)) eqn:V.
    + destruct (criterionText c qb) as [t q1|m]; [|discriminate].
      destruct (IH _ _ _ _ _ H) as (c' & Hin & He & Hw).
      exists c'. split; [now right | now split].
    + injection H as _ <- _. exists c.
      split; [now left|]. split; [reflexivity|].
      now apply invalid_not_whitelisted.
Qed.

Lemma generateWhereClause_error (qb q : Builder) (w : string) (e : error) :
  generateWhereClause qb = Returns (w, Some e) q ->
  (e = ErrFirstCriterionIsOr
   /\ exists c rest, criteria qb = c :: rest /\ c_or c = true)
  \/ (exists c, In c (criteria qb)
                /\ e = NewInvalidOperatorError (c_operator c)
                /\ ~ In (c_operator c) whitelist).
Proof.
  intros H. rewrite generateWhereClause_by_position in H.
  destruct (criteria qb) as [|c cs]; [discriminate|].
  rewrite whereByPosition_cons in H.
  destruct (c_or c) eqn:O.
  - injection H as _ <- _. left. split; [reflexivity|]. eauto.
  - right. destruct (operatorIsValid (c_operator c)) eqn:V.
    + destruct (criterionText c qb) as [t q1|m]; [|discriminate].
      destruct (laterCriteria_error _ _ _ _ _ _ H) as (c' & Hin & He & Hw).
      exists c'. split; [now right | now split].
    + injection H as _ <- _. exists c.
      split; [now left|]. split; [reflexivity|].
      now apply invalid_not_whitelisted.
Qed.

Lemma generateReturningClause_error (qb : Builder) (r : string) (e : error) :
  generateReturningClause qb = (r, Some e) ->
  (e = ErrDBEngineDoesNotSupportReturning
   /\ returningColumns qb <> [] /\ db qb <> POSTGRES /\ db qb <> ORACLE)
  \/ (e = NewBadColumnsValuesComboError
            (len (returningColumns qb)) (len (returnValues qb))
      /\ (db qb = POSTGRES \/ db qb = ORACLE)
      /\ List.length (returningColumns qb) <> List.length (returnValues qb)).
Proof.
  unfold generateReturningClause.
  destruct (returningColumns qb) as [|c cs] eqn:C; [discriminate|].
  replace (len (c :: cs) =? 0)%Z with false
    by (symmetry; apply Z.eqb_neq; rewrite len_cons;
        pose proof (len_nonneg cs); lia).
  destruct (Z.eqb_spec (db qb) POSTGRES) as [P|P];
    destruct (Z.eqb_spec (db qb) ORACLE) as [O|O]; cbn [negb andb];
    try (rewrite len_eqb;
         destruct (Nat.eqb_spec (List.length (c :: cs))
                     (List.length (returnValues qb))) as [E|E];
         cbn [negb]; [discriminate|];
         intros H; injection H as _ <-; right;
         split; [reflexivity|]; split; [tauto|exact E]).
  intros H. injection H as _ <-. left.
  split; [reflexivity|]. split; [discriminate|]. split; assumption.
Qed.

Lemma generateSelectClause_error (qb : Builder) (t : string) (e : error) :
  generateSelectClause qb = (t, Some e) ->
  List.length (columns qb) <> List.length (values qb)
  /\ e = NewBadColumnsValuesComboError (len (columns qb)) (len (values qb)).
Proof.
  unfold generateSelectClause. rewrite len_eqb.
  destruct (Nat.eqb_spec (List.length (columns qb)) (List.length (values qb)))
    as [E|E]; cbn [negb]; [discriminate|].
  intros H. injection H as _ <-. now split.
Qed.

(** X10. Every error that generation returns has its cause in the builder.
    An arity error carries the lengths of two sequences that differ: the
    columns and values of a SELECT, INSERT or UPDATE, or the returning
    columns and return values of an INSERT, UPDATE or DELETE on Postgres or
    Oracle.  An Invalid-Operator error carries the stored operator of a
    criterion of the builder that is not in the whitelist, and a
    First-Criterion-Is-Or error means that the first criterion is an OR;
    neither comes from an INSERT.  An Unsupported-Returning error means
    that there is a returning column and that the dialect is neither
    Postgres nor Oracle; it never comes from a SELECT. *)
Theorem X10_errors_are_justified
        (qb qb' : Builder) (txt : string) (e : error) :
  GenerateQuery qb = Returns (txt, Some e) qb' -> justified qb e.
Proof.
  intros H. apply error_has_first_failure in H. destruct H as [_ F].
  assert (A : forall q, sameIntent qb q ->
                List.length (columns qb) <> List.length (values qb) ->
                qtype qb <> deleteQry ->
                justified qb (NewBadColumnsValuesComboError
                                (len (columns qb)) (len (values qb)))).
  { intros q _ Hl K. left. repeat split; assumption. }
  assert (W : forall q q' w, sameIntent qb q -> qtype qb <> insertQry ->
                generateWhereClause q = Returns (w, Some e) q' ->
                justified qb e).
  { intros q q' w S K HW.
    assert (C : criteria q = criteria qb) by (rewrite S; reflexivity).
    apply generateWhereClause_error in HW. rewrite C in HW.
    destruct HW as [(-> & c & rest & Hc & Ho)|(c & Hin & -> & Hw)].
    - split; [exact K|]. eauto.
    - split; [exact K|]. exists c. repeat split; assumption. }
  assert (Rt : forall q r, sameIntent qb q -> qtype qb <> selectQry ->
                 generateReturningClause q = (r, Some e) ->
                 justified qb e).
  { intros q r S K HR.
    rewrite (generateReturningClause_sameIntent qb q S) in HR.
    apply generateReturningClause_error in HR.
    destruct HR as [(-> & Hne & Hp & Ho)|(-> & Hd & Hl)].
    - repeat split; assumption.
    - right. repeat split; assumption. }
  destruct F as [t e K S|t w e q1 K S HW|t e q1 K I|t r e q1 K I HR
                |t e q1 K U|t w e q1 q2 K U HW|t w r e q1 q2 K U HW HR
                |w e q1 K HW|w r e q1 K HW HR].
  - apply generateSelectClause_error in S. destruct S as [Hl ->].
    apply (A qb (sameIntent_refl qb) Hl). congruence.
  - apply (W qb q1 w (sameIntent_refl qb)); [congruence | exact HW].
  - destruct (generateInsertClause_returns qb) as (t' & e' & q' & I' & He).
    rewrite I in I'. injection I' as <- <- <-.
    destruct He as [Hl He]; [discriminate|]. injection He as ->.
    apply (A qb (sameIntent_refl qb) Hl). congruence.
  - apply (Rt q1 r); [eapply keepsIntent_generateInsertClause, I
                     | congruence | exact HR].
  - destruct (generateUpdateClause_returns qb) as (t' & e' & q' & U' & He).
    rewrite U in U'. injection U' as <- <- <-.
    destruct He as [Hl He]; [discriminate|]. injection He as ->.
    apply (A qb (sameIntent_refl qb) Hl). congruence.
  - apply (W q1 q2 w); [eapply keepsIntent_generateUpdateClause, U
                       | congruence | exact HW].
  - apply (Rt q2 r); [|congruence | exact HR].
    eapply sameIntent_trans;
      [eapply keepsIntent_generateUpdateClause, U
      |eapply keepsIntent_generateWhereClause, HW].
  - apply (W qb q1 w (sameIntent_refl qb)); [congruence | exact HW].
  - apply (Rt q1 r); [eapply keepsIntent_generateWhereClause, HW
                     | congruence | exact HR].
Qed.

Lemma X10_witness :
  justified select_with_ins (NewInvalidOperatorError "INS")
  /\ justified (insert_returning SQLITE) ErrDBEngineDoesNotSupportReturning.
Proof.
  split.
  - apply (X10_errors_are_justified select_with_ins
             (with_placeholderCount 1 select_with_ins) "").
    reflexivity.
  - apply (X10_errors_are_justified (insert_returning SQLITE)
             (with_placeholderCount 4 (insert_returning SQLITE)) "").
    reflexivity.
Defined.

(* ================================================================= *)
(** ** The tokens of successive calls *)

From Stdlib Require DecimalPos DecimalZ.

(** The decimal writing of an integer determines it. *)
Lemma itoa_inj (n m : Z) : itoa n = itoa m -> n = m.
Proof.
  unfold itoa. intros H.
  assert (N : forall z, Z.to_int z <> Decimal.Pos Decimal.Nil
                        /\ Z.to_int z <> Decimal.Neg Decimal.Nil).
  { intros [|p|p]; cbn; split; try discriminate;
      intros E; injection E as E; now apply DecimalPos.Unsigned.to_uint_nonnil in E. }
  apply (f_equal NilZero.int_of_string) in H.
  rewrite !NilZero.isi in H by apply N.
  injection H as H. now apply DecimalZ.to_int_inj.
Qed.

Lemma specToken_inj (d : database) (n m : Z) :
  d = POSTGRES \/ d = ORACLE -> specToken d n = specToken d m -> n = m.
Proof.
  intros [-> | ->]; unfold specToken; cbn [Z.eqb POSTGRES ORACLE Pos.eqb];
    intros H; injection H as H; now apply itoa_inj.
Qed.

Lemma specTokens_In (d : database) (k : nat) :
  forall from s, In s (specTokens d from k) ->
                 exists n, (from < n <= from + Z.of_nat k)%Z
                           /\ s = specToken d n.
Proof.
  induction k as [|k IH]; intros from s H; [contradiction|].
  rewrite specTokens_cons in H. destruct H as [<-|H].
  - exists (from + 1)%Z. split; [lia | reflexivity].
  - destruct (IH _ _ H) as (n & Hn & ->). exists n. split; [lia | reflexivity].
Qed.

Lemma specTokens_NoDup (d : database) (k : nat) :
  d = POSTGRES \/ d = ORACLE ->
  forall from, NoDup (specTokens d from k).
Proof.
  intros Hd. induction k as [|k IH]; intros from; [constructor|].
  rewrite specTokens_cons. constructor; [|apply IH].
  intros H. apply specTokens_In in H. destruct H as (n & Hn & E).
  apply (specToken_inj d _ _ Hd) in E. lia.
Qed.

Lemma specTokens_length (d : database) (k : nat) :
  forall from, List.length (specTokens d from k) = k.
Proof.
  induction k as [|k IH]; intros from; [reflexivity|].
  rewrite specTokens_cons. cbn [List.length]. now rewrite IH.
Qed.

Lemma allocate_spec (k : nat) :
  forall (c : Z) (qb : Builder),
    (- 2 ^ 63 <= c)%Z -> (c + Z.of_nat k < 2 ^ 63)%Z ->
    allocate k (with_placeholderCount c qb)
    = Returns (specTokens (db qb) c k)
        (with_placeholderCount (c + Z.of_nat k) qb).
Proof.
  induction k as [|k IH]; intros c qb Hlo Hhi.
  - cbn [allocate specTokens Z.of_nat]. now rewrite Z.add_0_r.
  - cbn [allocate]. unfold bind.
    rewrite addPlaceholder_spec by lia.
    rewrite IH by lia. unfold ret. rewrite specTokens_cons.
    f_equal. f_equal. lia.
Qed.

(** X11. Away from the overflow of the counter, [k] successive calls of the
    allocator return [k] tokens and add [k] to the counter; on Postgres and
    on Oracle the [k] tokens are pairwise different, and on every other
    dialect each of them is [?]. *)
Theorem X11_successive_tokens_differ (k : nat) (qb : Builder) :
  (- 2 ^ 63 <= placeholderCount qb)%Z ->
  (placeholderCount qb + Z.of_nat k < 2 ^ 63)%Z ->
  exists tokens,
    allocate k qb
    = Returns tokens
        (with_placeholderCount (placeholderCount qb + Z.of_nat k) qb)
    /\ List.length tokens = k
    /\ (db qb = POSTGRES \/ db qb = ORACLE -> NoDup tokens)
    /\ (db qb <> POSTGRES -> db qb <> ORACLE ->
        Forall (fun t => t = "?") tokens).
Proof.
  intros Hlo Hhi.
  exists (specTokens (db qb) (placeholderCount qb) k).
  pose proof (allocate_spec k (placeholderCount qb) qb Hlo Hhi) as E.
  rewrite with_placeholderCount_id in E.
  split; [exact E|]. split; [apply specTokens_length|]. split.
  - intros Hd. now apply specTokens_NoDup.
  - intros Hp Ho. apply Forall_forall. intros t H.
    apply specTokens_In in H. destruct H as (n & _ & ->).
    unfold specToken. apply Z.eqb_neq in Hp, Ho. now rewrite Hp, Ho.
Qed.

Lemma X11_witness :
  exists tokens,
    allocate 3 (ForPostgres (NewInsert "table1"))
    = Returns tokens
        (with_placeholderCount
           (placeholderCount (ForPostgres (NewInsert "table1")) + Z.of_nat 3)
           (ForPostgres (NewInsert "table1")))
    /\ List.length tokens = 3%nat
    /\ (db (ForPostgres (NewInsert "table1")) = POSTGRES
        \/ db (ForPostgres (NewInsert "table1")) = ORACLE -> NoDup tokens)
    /\ (db (ForPostgres (NewInsert "table1")) <> POSTGRES ->
        db (ForPostgres (NewInsert "table1")) <> ORACLE ->
        Forall (fun t => t = "?") tokens).
Proof.
  apply (X11_successive_tokens_differ 3 (ForPostgres (NewInsert "table1"))).
  - vm_compute. discriminate.
  - vm_compute. reflexivity.
Defined.

(* ================================================================= *)
(** ** The names stored by Select and Returning *)

Lemma Select_table (names : list string) (qb : Builder) :
  table (Select names qb) = table qb.
Proof.
  revert qb. induction names as [|name names IH]; intros qb; [reflexivity|].
  change (name :: names) with ([name] ++ names)%list.
  rewrite Select_app, IH, Select_one.
  destruct (Count name ".") as [|[|k]]; reflexivity.
Qed.

Lemma Returning_table (names : list string) (qb : Builder) :
  table (Returning names qb) = table qb.
Proof.
  revert qb. induction names as [|name names IH]; intros qb; [reflexivity|].
  change (name :: names) with ([name] ++ names)%list.
  rewrite Returning_app, IH, Returning_one.
  destruct (Count name ".") as [|[|k]]; reflexivity.
Qed.

(** X12. [Select] changes the columns only, and [Returning] the returning
    columns only: to the sequence it appends, in the order of the call, a
    name without a dot with the table and a dot in front, a name with one
    dot as it is, and nothing for a name with more dots.  The table is the
    one of the builder throughout. *)
Theorem X12_stored_names (names : list string) (qb : Builder) :
  Select names qb
  = with_columns
      (columns qb ++ flat_map (storedName (table qb)) names)%list qb
  /\ Returning names qb
     = with_returningColumns
         (returningColumns qb ++ flat_map (storedName (table qb)) names)%list
         qb.
Proof.
  split.
  - revert qb. induction names as [|name names IH]; intros qb.
    + cbn [Select flat_map]. rewrite app_nil_r. now destruct qb.
    + change (name :: names) with ([name] ++ names)%list.
      rewrite Select_app, IH, Select_one. cbn [flat_map app].
      unfold storedName at 2.
      destruct (Count name ".") as [|[|k]];
        cbn [columns table with_columns app];
        rewrite <- ?app_assoc; reflexivity.
  - revert qb. induction names as [|name names IH]; intros qb.
    + cbn [Returning flat_map]. rewrite app_nil_r. now destruct qb.
    + change (name :: names) with ([name] ++ names)%list.
      rewrite Returning_app, IH, Returning_one. cbn [flat_map app].
      unfold storedName at 2.
      destruct (Count name ".") as [|[|k]];
        cbn [returningColumns table with_returningColumns app];
        rewrite <- ?app_assoc; reflexivity.
Qed.

(* ================================================================= *)
(** ** The first words of a statement *)

Lemma prefix_append (s t : string) : String.prefix s (s ++ t) = true.
Proof.
  induction s as [|c s IH]; cbn.
  - now destruct t.
  - destruct (ascii_dec c c) as [_|N]; [exact IH | now contradiction N].
Qed.

Lemma columnsLoop_extends (cols : list string) :
  forall n i qry, exists s, columnsLoop n i cols qry = qry ++ s.
Proof.
  induction cols as [|c cols IH]; intros n i qry; cbn [columnsLoop].
  - exists "". now rewrite append_nil_r.
  - destruct (i <? n - 1)%Z.
    + destruct (IH n (i + 1)%Z ((qry ++ c) ++ ",")) as (s & ->).
      eexists. string_assoc. reflexivity.
    + destruct (IH n (i + 1)%Z (qry ++ c)) as (s & ->).
      eexists. string_assoc. reflexivity.
Qed.

Lemma insertValuesLoop_extends (vs : list value) :
  forall n i qry qb t q,
    insertValuesLoop n i vs qry qb = Returns t q -> exists s, t = qry ++ s.
Proof.
  induction vs as [|v vs IH]; intros n i qry qb t q; cbn [insertValuesLoop].
  - intros H. injection H as <- _. exists "". now rewrite append_nil_r.
  - unfold bind. step_placeholder. intros H.
    apply IH in H. destruct H as (s & ->).
    destruct (i <? n - 1)%Z; eexists; string_assoc; reflexivity.
Qed.

Lemma updateLoop_extends (cols : list string) :
  forall n i qry qb t q,
    updateLoop n i cols qry qb = Returns t q -> exists s, t = qry ++ s.
Proof.
  induction cols as [|c cols IH]; intros n i qry qb t q; cbn [updateLoop].
  - intros H. injection H as <- _. exists "". now rewrite append_nil_r.
  - unfold bind. step_placeholder. intros H.
    apply IH in H. destruct H as (s & ->).
    destruct (i <? n - 1)%Z; eexists; string_assoc; reflexivity.
Qed.

Lemma generateInsertClause_extends (qb q : Builder) (t : string) :
  generateInsertClause qb = Returns (t, None) q ->
  exists s, t = ("INSERT INTO " ++ table qb ++ " (") ++ s.
Proof.
  unfold generateInsertClause.
  destruct (negb _); [discriminate|]. unfold bind, ret.
  destruct (columnsLoop_extends (columns qb) (len (columns qb)) 0
              ("INSERT INTO " ++ table qb ++ " (")) as (s1 & ->).
  match goal with
  | |- context [insertValuesLoop ?n ?i ?vs ?qry qb] =>
      destruct (insertValuesLoop n i vs qry qb) as [t1 q1|m] eqn:L
  end; [|discriminate].
  intros H. injection H as <- _.
  apply insertValuesLoop_extends in L. destruct L as (s2 & ->).
  eexists. string_assoc. reflexivity.
Qed.

Lemma generateUpdateClause_extends (qb q : Builder) (t : string) :
  generateUpdateClause qb = Returns (t, None) q ->
  exists s, t = ("UPDATE " ++ table qb ++ " SET ") ++ s.
Proof.
  unfold generateUpdateClause.
  destruct (negb _); [discriminate|]. unfold bind, ret.
  match goal with
  | |- context [updateLoop ?n ?i ?cs ?qry qb] =>
      destruct (updateLoop n i cs qry qb) as [t1 q1|m] eqn:L
  end; [|discriminate].
  intros H. injection H as <- _.
  apply updateLoop_extends in L. destruct L as (s2 & ->).
  eexists. string_assoc. reflexivity.
Qed.

(** X13. The text of a generation that returns without error starts with
    the words of its statement: [SELECT ] for a SELECT, [INSERT INTO],
    the table and [ (] for an INSERT, [UPDATE], the table and [ SET ] for
    an UPDATE, [DELETE FROM] and the table for a DELETE. *)
Theorem X13_text_starts_with_the_statement
        (qb qb' : Builder) (txt : string) :
  GenerateQuery qb = Returns (txt, None) qb' ->
  String.prefix (leadingWords qb) txt = true.
Proof.
  intros H.
  assert (P : exists s, txt = leadingWords qb ++ s);
    [|destruct P as (s & ->); apply prefix_append].
  unfold leadingWords. unfold_statements.
  destruct (qtype qb).
  - destruct (Nat.eq_dec (List.length (columns qb)) (List.length (values qb)))
      as [Hl|Hl].
    + rewrite (generateSelectClause_arity qb Hl) in H.
      destruct (generateWhereClause qb) as [[w [e|]] q1|m];
        try discriminate.
      injection H as <- _. eexists. string_assoc. reflexivity.
    + rewrite (generateSelectClause_mismatch qb Hl) in H. discriminate.
  - destruct (generateInsertClause qb) as [[t [e|]] q1|m] eqn:E;
      try discriminate.
    destruct (generateReturningClause q1) as [r [e|]]; try discriminate.
    injection H as <- _.
    apply generateInsertClause_extends in E. destruct E as (s & ->).
    eexists. string_assoc. reflexivity.
  - destruct (generateUpdateClause qb) as [[t [e|]] q1|m] eqn:E;
      try discriminate.
    destruct (generateWhereClause q1) as [[w [e|]] q2|m]; try discriminate.
    destruct (generateReturningClause q2) as [r [e|]]; try discriminate.
    injection H as <- _.
    apply generateUpdateClause_extends in E. destruct E as (s & ->).
    eexists. string_assoc. reflexivity.
  - destruct (generateWhereClause qb) as [[w [e|]] q1|m]; try discriminate.
    destruct (generateReturningClause q1) as [r [e|]]; try discriminate.
    injection H as <- _.
    unfold generateDeleteClause, generateFromAndJoinClause.
    rewrite joinLoop_concat.
    exists (concatAll (map joinText (joinTables qb)) ++ w ++ r).
    string_assoc. reflexivity.
Qed.

Lemma X13_witness :
  String.prefix (leadingWords update_between)
    "UPDATE t SET f1=$1,f2=$2,f3=$3 WHERE id BETWEEN $4 AND $5" = true.
Proof.
  apply (X13_text_starts_with_the_statement update_between
           (with_placeholderCount 5 update_between)).
  reflexivity.
Defined.

(* ================================================================= *)
(** ** IN on the dialects without numbers *)

Lemma Repeat_nonneg (s : string) (count : Z) :
  (0 <= count)%Z -> (strlen s * count <= maxInt)%Z ->
  Repeat s count = inr (repeat_string s (Z.to_nat count)).
Proof.
  intros H0 Hm. unfold Repeat.
  destruct (Z.eqb_spec count 0) as [->|N0]; [reflexivity|].
  destruct (Z.eqb_spec count 1) as [->|N1].
  - change (Z.to_nat 1) with 1%nat. cbn [repeat_string].
    now rewrite append_nil_r.
  - replace (count <? 0)%Z with false by (symmetry; apply Z.ltb_ge; lia).
    replace (maxInt <? strlen s * count)%Z with false
      by (symmetry; apply Z.ltb_ge; lia).
    reflexivity.
Qed.

Lemma question_marks (k : nat) :
  "?" ++ repeat_string ",?" k = String.concat "," (List.repeat "?" (S k)).
Proof.
  induction k as [|k IH]; [reflexivity|].
  change (List.repeat "?" (S (S k))) with ("?" :: "?" :: List.repeat "?" k).
  rewrite concat_cons2.
  change ("?" :: List.repeat "?" k) with (List.repeat "?" (S k)).
  rewrite <- IH. reflexivity.
Qed.

(** X14. On a dialect other than Postgres and Oracle, a criterion with the
    operator IN and [k] values, [k] at least 1 (and small enough for the
    length of the list to fit an [int]), is rendered as the column,
    [ IN (] , [k] question marks separated by commas, and [)]: one
    placeholder for each value.  The allocator has been called twice
    whatever [k] is. *)
Theorem X14_in_on_unnumbered_dialects (c : criterion) (qb : Builder) :
  db qb <> POSTGRES -> db qb <> ORACLE ->
  c_operator c = "IN" ->
  c_values c <> [] ->
  (2 * (len (c_values c) - 1) <= maxInt)%Z ->
  criterionText c qb
  = Returns
      (c_column c ++ " IN ("
       ++ String.concat "," (List.repeat "?" (List.length (c_values c)))
       ++ ")")
      (with_placeholderCount
         (int_wrap (int_wrap (placeholderCount qb + 1) + 1)) qb).
Proof.
  intros Hp Ho Hop Hv Hm. unfold criterionText. rewrite Hop.
  cbn [String.eqb Ascii.eqb Bool.eqb orb].
  unfold bind, ret, orPanic, addPlaceholder.
  cbn [db placeholderCount with_placeholderCount].
  apply Z.eqb_neq in Hp, Ho. rewrite Hp, Ho.
  destruct (c_values c) as [|v vs]; [contradiction|].
  rewrite len_cons in *. pose proof (len_nonneg vs) as L.
  rewrite Repeat_nonneg by (try lia; exact Hm).
  replace (Z.to_nat (len vs + 1 - 1)) with (List.length vs)
    by (unfold len; lia).
  cbn [List.length]. rewrite <- question_marks.
  f_equal. string_assoc. reflexivity.
Qed.

Lemma X14_witness :
  criterionText
    (mkCriterion "table1.field2" "IN" [VInt 1; VInt 2; VInt 3] false)
    (NewSelect "table1")
  = Returns ("table1.field2" ++ " IN ("
             ++ String.concat "," (List.repeat "?" 3) ++ ")")
      (with_placeholderCount
         (int_wrap (int_wrap (placeholderCount (NewSelect "table1") + 1) + 1))
         (NewSelect "table1")).
Proof.
  apply (X14_in_on_unnumbered_dialects
           (mkCriterion "table1.field2" "IN" [VInt 1; VInt 2; VInt 3] false)
           (NewSelect "table1")).
  - discriminate.
  - discriminate.
  - reflexivity.
  - discriminate.
  - vm_compute. discriminate.
Defined.
